(** * AI-Psychometrics-Lab: sampling, parsing and derived-MBTI scoring

    A shallow embedding of
    - [deriveMBTIFromBigFive] (lib/psychometrics/inventories/mbti),
    - the response parsing and the sampling loop of [runAnalysis]
      (app/api/analyze/route.ts),
    - the request validation of the scoring endpoints
      (app/api/bigfive/route.ts, app/api/psychometrics/route.ts).

    Conventions.  A JS object used as a dictionary is a [gmap string _].
    JS numbers that hold scores are rationals ([Q], compared with [==]);
    raw samples produced by the parser are integers ([Z]).  NaN and the
    infinities have no counterpart and are not produced by the modelled
    code on the inputs considered. *)

From Stdlib Require Import Ascii String QArith Qabs Lqa ZArith Lia.
From stdpp Require Import gmap strings list.

Open Scope Z_scope.

(** ** Derived MBTI (deriveMBTIFromBigFive) *)

Module Mbti.

(** [InventoryResult]: the fields the transform reads and writes.
    [details] is a free-form diagnostic map; here it only records the
    [derived] flag and the [source] name. *)
Record InventoryResult := {
  inventoryName : string;
  rawScores : gmap string (list Z);
  traitScores : gmap string Q;
  type : option string;
  psi : option (gmap string Q);
  details : list (string * string)
}.

Definition MIDPOINT : Q := 72%Q.
Definition MAX_DELTA : Q := 48%Q.

(** [scores[k] || MIDPOINT]: a missing entry is [undefined], and both
    [undefined] and [0] are falsy, so either one yields MIDPOINT. *)
Definition or_midpoint (scores : gmap string Q) (k : string) : Q :=
  match scores !! k with
  | Some q => if Qeq_bool q 0 then MIDPOINT else q
  | None => MIDPOINT
  end.

(** [Math.abs(x - MIDPOINT) / MAX_DELTA] *)
Definition psi_of (x : Q) : Q := (Qabs (x - MIDPOINT) / MAX_DELTA)%Q.

(** [x >= MIDPOINT ? hi : lo] *)
Definition letter (x : Q) (hi lo : string) : string :=
  if Qle_bool MIDPOINT x then hi else lo.

Definition deriveMBTIFromBigFive (bigFiveResults : InventoryResult)
  : InventoryResult :=
  let scores := traitScores bigFiveResults in
  let eScore := or_midpoint scores "E" in
  let oScore := or_midpoint scores "O" in
  let aScore := or_midpoint scores "A" in
  let cScore := or_midpoint scores "C" in
  let psi : gmap string Q :=
    <["IE" := psi_of eScore]>
    (<["SN" := psi_of oScore]>
    (<["TF" := psi_of aScore]>
    (<["JP" := psi_of cScore]> ∅))) in
  let type :=
    letter eScore "E" "I" +:+ letter oScore "N" "S" +:+
    letter aScore "F" "T" +:+ letter cScore "J" "P" in
  let traitScores : gmap string Q :=
    <["E" := eScore]> (<["I" := (144 - eScore)%Q]>
    (<["N" := oScore]> (<["S" := (144 - oScore)%Q]>
    (<["F" := aScore]> (<["T" := (144 - aScore)%Q]>
    (<["J" := cScore]> (<["P" := (144 - cScore)%Q]> ∅))))))) in
  {| inventoryName := "MBTI (Derived from Big Five)";
     rawScores := ∅;
     traitScores := traitScores;
     type := Some type;
     psi := Some psi;
     details := [("derived", "true"); ("source", "IPIP-NEO-120")] |}.

(** The four polarity pairs: source domain, PSI key, high and low pole. *)
Record Dimension := {
  domain : string;
  psi_key : string;
  high : string;
  low : string
}.

Definition dimensions : list Dimension :=
  [ {| domain := "E"; psi_key := "IE"; high := "E"; low := "I" |};
    {| domain := "O"; psi_key := "SN"; high := "N"; low := "S" |};
    {| domain := "A"; psi_key := "TF"; high := "F"; low := "T" |};
    {| domain := "C"; psi_key := "JP"; high := "J"; low := "P" |} ].

(** Readers for the result: PSI of a pair, a trait score, the i-th letter. *)
Definition psi_at (r : InventoryResult) (k : string) : option Q :=
  match psi r with Some m => m !! k | None => None end.

Definition trait_at (r : InventoryResult) (k : string) : option Q :=
  traitScores r !! k.

Definition letter_at (r : InventoryResult) (i : nat) : option string :=
  match type r with
  | Some t => (fun c => String c EmptyString) <$> String.get i t
  | None => None
  end.

(** *** The rules as the specification words them, on the score stored
    under the domain key itself *)

(** Letter rule: the high pole exactly when the stored score is >= 72. *)
Definition letter_rule_on_stored_score : Prop :=
  ∀ (r : InventoryResult) (i : nat) (d : Dimension) (s : Q),
    dimensions !! i = Some d →
    traitScores r !! domain d = Some s →
    (letter_at (deriveMBTIFromBigFive r) i = Some (high d) ↔ (72 <= s)%Q).


(** The letters a type may hold. *)
Definition allowed_letter (c : ascii) : Prop :=
  c ∈ list_ascii_of_string "EINSFTJP".

(** A result with the given domain scores and nothing else. *)
Definition big_five (scores : list (string * Q)) : InventoryResult :=
  {| inventoryName := "Big Five (IPIP-NEO-120)";
     rawScores := ∅;
     traitScores := list_to_map scores;
     type := None;
     psi := None;
     details := [] |}.

End Mbti.

(** ** Response parsing (runAnalysis, the two regular expressions) *)

Module Parser.

(** A response is the text returned by the model.  The two regular
    expressions only distinguish ASCII classes ([\d] is [0-9], [\w] is
    [A-Za-z0-9_], without the unicode flag), so every character outside
    ASCII behaves as a non-word, non-digit character. *)

Definition code (c : ascii) : N := N_of_ascii c.

Definition between (lo hi : N) (c : ascii) : bool :=
  ((lo <=? code c) && (code c <=? hi))%N.

(** [\d] *)
Definition is_digit (c : ascii) : bool := between 48 57 c.

(** [\w] *)
Definition is_word (c : ascii) : bool :=
  is_digit c || between 65 90 c || between 97 122 c || (code c =? 95)%N.

(** [[1-5]] *)
Definition is_1_to_5 (c : ascii) : bool := between 49 53 c.

(** [\b] between two neighbouring positions; [None] stands for the start
    or the end of the input, which counts as a non-word character. *)
Definition is_word_opt (o : option ascii) : bool :=
  match o with Some c => is_word c | None => false end.

Definition word_boundary (before after : option ascii) : bool :=
  xorb (is_word_opt before) (is_word_opt after).

Definition head_char (s : string) : option ascii :=
  match s with String c _ => Some c | EmptyString => None end.

(** [response.match(/\b([1-5])\b/)]: the start positions are tried from
    left to right; [prev] is the character before the current position.
    The result is capture group 1 of the leftmost match. *)
Fixpoint match_likert (prev : option ascii) (s : string) : option ascii :=
  match s with
  | EmptyString => None
  | String c rest =>
      if word_boundary prev (Some c) && is_1_to_5 c
         && word_boundary (Some c) (head_char rest)
      then Some c
      else match_likert (Some c) rest
  end.

(** [response.match(/(\d+)/g)]: all matches from left to right, each one
    a maximal run of digits.  [cur] is the run being read. *)
Fixpoint digit_runs_from (cur : string) (s : string) : list string :=
  match s with
  | EmptyString =>
      match cur with EmptyString => [] | _ => [cur] end
  | String c rest =>
      if is_digit c then digit_runs_from (cur +:+ String c EmptyString) rest
      else match cur with
           | EmptyString => digit_runs_from EmptyString rest
           | _ => cur :: digit_runs_from EmptyString rest
           end
  end.

Definition digit_runs (s : string) : list string :=
  digit_runs_from EmptyString s.

(** [parseInt] on a string of decimal digits: its decimal value.  (The
    JS result is the double nearest to that value, which is the value
    itself below 2^53, that is for every run of up to 15 digits.) *)
Definition digit_value (c : ascii) : Z := Z.of_N (code c) - 48.

Fixpoint parseInt_from (acc : Z) (s : string) : Z :=
  match s with
  | EmptyString => acc
  | String c rest => parseInt_from (10 * acc + digit_value c) rest
  end.

Definition parseInt (s : string) : Z := parseInt_from 0 s.

(** The [else] branch of the parse step: a 1-5 score, neutral 3 if the
    response holds no standalone digit 1-5. *)
Definition parse_likert (response : string) : Z :=
  match match_likert None response with
  | Some d => parseInt (String d EmptyString)
  | None => 3
  end.

(** The [choice_binary] branch: the first two numbers of the response,
    1-based, as [most], [least]; 0 when fewer than two are found. *)
Definition parse_choice (response : string) : Z :=
  match digit_runs response with
  | m0 :: m1 :: _ =>
      let most := parseInt m0 - 1 in
      let least := parseInt m1 - 1 in
      most * 10 + least
  | _ => 0
  end.

(** *** The specification's reading of the two rules *)

Fixpoint last_char (s : string) : option ascii :=
  match s with
  | EmptyString => None
  | String c EmptyString => Some c
  | String _ rest => last_char rest
  end.

(** Position [i] of [s] holds a standalone digit [d]: the character there
    is one of 1-5 and neither neighbour is a word character. *)
Definition standalone_at (s : string) (i : nat) (d : ascii) : Prop :=
  ∃ pre post : string,
    s = pre +:+ String d post ∧ String.length pre = i ∧
    is_1_to_5 d = true ∧
    is_word_opt (last_char pre) = false ∧
    is_word_opt (head_char post) = false.

(** The same, when [s] is read after the character [prev]. *)
Definition standalone_after (prev : option ascii) (s : string) (i : nat)
    (d : ascii) : Prop :=
  ∃ pre post : string,
    s = pre +:+ String d post ∧ String.length pre = i ∧
    is_1_to_5 d = true ∧
    is_word_opt (from_option Some prev (last_char pre)) = false ∧
    is_word_opt (head_char post) = false.

(** [d] is the first standalone digit of [s]. *)
Definition first_standalone (s : string) (d : ascii) : Prop :=
  ∃ i, standalone_at s i d ∧
       ∀ j d', (j < i)%nat → ¬ standalone_at s j d'.

Definition no_standalone (s : string) : Prop :=
  ∀ i d, ¬ standalone_at s i d.





End Parser.

(** ** The sampling loop and the run (runAnalysis) *)

Module Analyze.

Import Parser.

Inductive ItemType := likert_5 | choice_binary.

(** Type-specific payload of an item: a statement (Big Five), a pair of
    descriptions tagged with a dimension (MBTI), or candidate words
    (DISC). *)
Inductive Payload :=
| Statement (text : string)
| Bipolar (dimension leftText rightText : string)
| Candidates (words : list string).

Record InventoryItem := {
  id : string;
  type : ItemType;
  payload : Payload
}.

(** One call of [fetchOpenRouterResponse]: it resolves with a text or
    rejects with an error. *)
Inductive QueryOutcome :=
| Resolved (response : string)
| Rejected (err : string).

(** The prompt is a function of the item alone and the model samples at
    temperature 0.7, so a run is described by what the k-th call made for
    an item does. *)
Definition Query := InventoryItem → nat → QueryOutcome.

(** Entries of the [logs] array, one constructor per message template. *)
Inductive LogEntry :=
| LogStart (model persona : string)
| LogTotal (items requests : nat)
| LogDisc (item : string) (most least : Z)
| LogDiscFailed (item response : string)
| LogScore (item : string) (score : Z)
| LogFailed (item response : string)
| LogError (item err : string)
| LogProgress (done total : nat)
| LogCalculating
| LogSaving
| LogDatabaseError (message : string)
| LogSaved
| LogNotConfigured
| LogCompleted
| LogFatal (message : string).

(** The body of the [try] of one sample round: the pushed value and the
    log line. *)
Definition parse_response (item : InventoryItem) (response : string)
  : Z * LogEntry :=
  match type item with
  | choice_binary =>
      match digit_runs response with
      | m0 :: m1 :: _ =>
          let most := parseInt m0 - 1 in
          let least := parseInt m1 - 1 in
          let encoded := most * 10 + least in
          (encoded, LogDisc (id item) (most + 1) (least + 1))
      | _ => (0, LogDiscFailed (id item) response)
      end
  | likert_5 =>
      match match_likert None response with
      | Some d =>
          let score := parseInt (String d EmptyString) in
          (score, LogScore (id item) score)
      | None => (3, LogFailed (id item) response)
      end
  end.

(** One sample round, with its [catch]. *)
Definition sample_round (item : InventoryItem) (out : QueryOutcome)
  : Z * LogEntry :=
  match out with
  | Resolved response => parse_response item response
  | Rejected err => (3, LogError (id item) err)
  end.

(** What a run does to the outside and to [rawScores], in order. *)
Inductive Event (Row : Type) :=
| EvQuery (item : string) (sample : nat)
| EvWrite (item : string) (scores : list Z)
| EvInsert (row : Row).
Arguments EvQuery {Row}.
Arguments EvWrite {Row}.
Arguments EvInsert {Row}.

(** The row handed to [supabase.from('runs').insert]. *)
Record Row := {
  model_name : string;
  row_persona : string;
  config_systemPrompt : string;
  row_results : gmap string Mbti.InventoryResult;
  row_logs : list LogEntry;
  created_at : Z
}.

Record ModelProfile := {
  modelName : string;
  persona : string;
  systemPrompt : string;
  timestamp : Z;
  results : gmap string Mbti.InventoryResult
}.

(** The mutable state of a run: the [rawScores] object, the [logs]
    array, and the events so far. *)
Record Store := {
  rawScores : gmap string (list Z);
  logs : list LogEntry;
  trace : list (Event Row)
}.

Definition push_log (e : LogEntry) (st : Store) : Store :=
  {| rawScores := rawScores st; logs := logs st ++ [e]; trace := trace st |}.

Definition emit (e : Event Row) (st : Store) : Store :=
  {| rawScores := rawScores st; logs := logs st; trace := trace st ++ [e] |}.

(** [rawScores[item.id] = itemScores] *)
Definition write_scores (k : string) (v : list Z) (st : Store) : Store :=
  emit (EvWrite k v)
    {| rawScores := <[k := v]> (rawScores st);
       logs := logs st; trace := trace st |}.

Definition SAMPLES : nat := 5.
Definition CHUNK_SIZE : nat := 5.

Section Run.

Variable query : Query.

(** Completion order of the tasks of one [Promise.all]: the tasks of a
    chunk are run one after the other in the order [sched] gives.  A task
    only touches its own [itemScores] and, when it ends, its own key of
    [rawScores]. *)
Variable sched : list InventoryItem → list InventoryItem.

(** [for (let sample = 0; sample < 5; sample++)], with [n] rounds left. *)
Fixpoint sample_loop (item : InventoryItem) (n sample : nat)
    (itemScores : list Z) (st : Store) : list Z * Store :=
  match n with
  | O => (itemScores, st)
  | S n' =>
      let st := emit (EvQuery (id item) sample) st in
      let '(v, line) := sample_round item (query item sample) in
      sample_loop item n' (S sample) (itemScores ++ [v]) (push_log line st)
  end.

(** The task mapped over a chunk. *)
Definition item_task (st : Store) (item : InventoryItem) : Store :=
  let '(itemScores, st) := sample_loop item SAMPLES 0 [] st in
  write_scores (id item) itemScores st.

(** [await Promise.all(chunk.map(...))] *)
Definition promise_all (chunk : list InventoryItem) (st : Store) : Store :=
  foldl item_task st (sched chunk).

(** [for (let i = 0; i < allItems.length; i += CHUNK_SIZE)]; every turn
    takes at least one item, so [length allItems] turns are enough. *)
Fixpoint chunk_loop (allItems : list InventoryItem) (fuel i : nat)
    (st : Store) : Store :=
  match fuel with
  | O => st
  | S fuel' =>
      if (i <? length allItems)%nat then
        let chunk := take CHUNK_SIZE (drop i allItems) in
        let st := promise_all chunk st in
        let st := push_log (LogProgress
                     (Nat.min (i + length chunk) (length allItems))
                     (length allItems)) st in
        chunk_loop allItems fuel' (i + CHUNK_SIZE) st
      else st
  end.

Definition runSampling (allItems : list InventoryItem) (st : Store) : Store :=
  chunk_loop allItems (length allItems) 0 st.

(** *** What a run amounts to *)

(** The five samples of an item, in round order. *)
Definition samples_of (item : InventoryItem) : list Z :=
  (fun k => (sample_round item (query item k)).1) <$> seq 0 SAMPLES.

(** The events of one task. *)
Definition task_events (item : InventoryItem) : list (Event Row) :=
  (EvQuery (id item) <$> seq 0 SAMPLES) ++
  [EvWrite (id item) (samples_of item)].

(** [rawScores] after the tasks of [l] have ended, one after the other. *)
Definition written (m : gmap string (list Z)) (l : list InventoryItem)
  : gmap string (list Z) :=
  foldl (fun m item => <[id item := samples_of item]> m) m l.

(** The order in which the tasks of the whole loop end. *)
Fixpoint run_order (allItems : list InventoryItem) (fuel i : nat)
  : list InventoryItem :=
  match fuel with
  | O => []
  | S fuel' =>
      if (i <? length allItems)%nat then
        sched (take CHUNK_SIZE (drop i allItems)) ++
        run_order allItems fuel' (i + CHUNK_SIZE)
      else []
  end.

End Run.

(** Number of writes of [rawScores[k]] among the events. *)
Definition writes_to (k : string) (t : list (Event Row)) : nat :=
  length (List.filter
            (fun e => match e with
                      | EvWrite k' _ => bool_decide (k' = k)
                      | _ => false
                      end) t).

(** The rows handed to the persistence client, in order. *)
Definition inserts (t : list (Event Row)) : list Row :=
  omap (fun e => match e with EvInsert row => Some row | _ => None end) t.

(** The fallback value the specification gives per item type. *)
Definition spec_fallback (ty : ItemType) : Z :=
  match ty with likert_5 => 3 | choice_binary => 0 end.

(** The store a run starts its sampling from. *)
Definition initial_store (logs0 : list LogEntry) : Store :=
  {| rawScores := ∅; logs := logs0; trace := [] |}.

(** A call into code that may throw. *)
Inductive Completion (A : Type) :=
| Normal (a : A)
| Throw (message : string).
Arguments Normal {A}.
Arguments Throw {A}.

(** The result of [await supabase.from('runs').insert(row)]: the
    [{ error }] object, or a rejection. *)
Inductive InsertOutcome :=
| InsertOk
| InsertError (message : string)
| InsertRejected (message : string).

(** How the promise returned by [runAnalysis] settles. *)
Inductive Settled := Fulfilled | Raised (message : string).

(** A finished run: the store, the local [profile], and how the promise
    settled. *)
Record Run := {
  store : Store;
  profile : ModelProfile;
  settled : Settled
}.

Section RunAnalysis.

(** The item catalogs and the three scoring functions live in
    lib/psychometrics/inventories; the persistence client in
    lib/supabase ([None] when it is not configured).  [now] is
    [Date.now()]. *)
Variables BIG_FIVE_ITEMS DISC_ITEMS MBTI_ITEMS : list InventoryItem.
Variables calculateBigFiveScores calculateDISCScores calculateMBTIScores :
  gmap string (list Z) → Completion Mbti.InventoryResult.
Variable supabase : option (Row → InsertOutcome).
Variable now : Z.
Variable query : Query.
Variable sched : list InventoryItem → list InventoryItem.

Definition includes (inventories : list string) (name : string) : bool :=
  bool_decide (name ∈ inventories).

Definition collect_items (inventories : list string) : list InventoryItem :=
  let allItems := [] in
  let allItems :=
    if includes inventories "bigfive" then allItems ++ BIG_FIVE_ITEMS
    else allItems in
  let allItems :=
    if includes inventories "disc" then allItems ++ DISC_ITEMS
    else allItems in
  if includes inventories "mbti" then allItems ++ MBTI_ITEMS else allItems.

(** The three [if (inventories.includes(...))] blocks that fill
    [profile.results].  A scoring function that throws leaves the [try]
    with the entries stored so far. *)
Definition calculate_results (inventories : list string)
    (raw : gmap string (list Z))
  : gmap string Mbti.InventoryResult * Completion unit :=
  let res : gmap string Mbti.InventoryResult := ∅ in
  let '(res, c) :=
    if includes inventories "bigfive" then
      match calculateBigFiveScores raw with
      | Normal bfResults =>
          (<["mbti_derived" := Mbti.deriveMBTIFromBigFive bfResults]>
           (<["bigfive" := bfResults]> res), Normal ())
      | Throw m => (res, Throw m)
      end
    else (res, Normal ()) in
  match c with
  | Throw m => (res, Throw m)
  | Normal _ =>
      let '(res, c) :=
        if includes inventories "disc" then
          match calculateDISCScores raw with
          | Normal r => (<["disc" := r]> res, Normal ())
          | Throw m => (res, Throw m)
          end
        else (res, Normal ()) in
      match c with
      | Throw m => (res, Throw m)
      | Normal _ =>
          if includes inventories "mbti" then
            match calculateMBTIScores raw with
            | Normal r => (<["mbti" := r]> res, Normal ())
            | Throw m => (res, Throw m)
            end
          else (res, Normal ())
      end
  end.

(** [profile.persona || 'Base Model'] *)
Definition persona_or_default (p : string) : string :=
  match p with EmptyString => "Base Model" | _ => p end.

Definition row_of (p : ModelProfile) (logs : list LogEntry) : Row :=
  {| model_name := modelName p;
     row_persona := persona_or_default (persona p);
     config_systemPrompt := systemPrompt p;
     row_results := results p;
     row_logs := logs;
     created_at := timestamp p |}.

(** The [if (supabase) ... else ...] block. *)
Definition save (p : ModelProfile) (st : Store) : Store * Completion unit :=
  match supabase with
  | Some insert =>
      let st := push_log LogSaving st in
      let row := row_of p (logs st) in
      let st := emit (EvInsert row) st in
      match insert row with
      | InsertRejected m => (st, Throw m)
      | InsertError m => (push_log (LogDatabaseError m) st, Normal ())
      | InsertOk => (push_log LogSaved st, Normal ())
      end
  | None => (push_log LogNotConfigured st, Normal ())
  end.

(** The second half of the [try], from "Calculating scores..." on: the
    store and the local [profile] at the point where it ends or throws. *)
Definition score_and_save (model : string) (inventories : list string)
    (persona systemPrompt : string) (st : Store)
  : Store * ModelProfile * Completion unit :=
  let st := push_log LogCalculating st in
  let '(res, c) := calculate_results inventories (rawScores st) in
  let profile := {| modelName := model; persona := persona;
                    systemPrompt := systemPrompt; timestamp := now;
                    results := res |} in
  match c with
  | Throw m => (st, profile, Throw m)
  | Normal _ =>
      match save profile st with
      | (st, Throw m) => (st, profile, Throw m)
      | (st, Normal _) => (push_log LogCompleted st, profile, Normal ())
      end
  end.

(** The body of the [try]. *)
Definition try_body (model : string) (inventories : list string)
    (persona systemPrompt : string)
  : Store * ModelProfile * Completion unit :=
  let st := {| rawScores := ∅; logs := []; trace := [] |} in
  let st := push_log (LogStart model persona) st in
  let allItems := collect_items inventories in
  let st := push_log
              (LogTotal (length allItems) (length allItems * 5)) st in
  let st := runSampling query sched allItems st in
  score_and_save model inventories persona systemPrompt st.

(** [runAnalysis]: the [try] with its [catch], which logs and returns. *)
Definition runAnalysis (model : string) (inventories : list string)
    (persona systemPrompt : string) : Run :=
  match try_body model inventories persona systemPrompt with
  | (st, p, Normal _) =>
      {| store := st; profile := p; settled := Fulfilled |}
  | (st, p, Throw m) =>
      {| store := push_log (LogFatal m) st; profile := p;
         settled := Fulfilled |}
  end.

End RunAnalysis.

End Analyze.

(** ** Request validation of the scoring endpoints *)

Module Endpoints.

(** A parsed JSON value.  The fields of an object are listed in the
    order [Object.entries] enumerates them. *)
#[warnings="-register-all"]
Inductive json :=
| JNull
| JBool (b : bool)
| JNum (q : Q)
| JStr (s : string)
| JArr (items : list json)
| JObj (fields : list (string * json)).

(** [body.k] after [request.json()]: [None] is [undefined].  Reading a
    property of [null] throws; the caller handles that case. *)
Fixpoint assoc (k : string) (fields : list (string * json)) : option json :=
  match fields with
  | [] => None
  | (k', v) :: rest => if String.eqb k k' then Some v else assoc k rest
  end.

Definition get_property (body : json) (k : string) : option json :=
  match body with
  | JObj fields => assoc k fields
  | _ => None
  end.

(** [!rawScores || typeof rawScores !== 'object'] *)
Definition not_an_object (v : option json) : bool :=
  match v with
  | Some (JArr _) | Some (JObj _) => false
  | _ => true
  end.

(** Decimal rendering of an array index, the key [Object.entries] gives
    to an array element. *)
Definition digit_char (d : nat) : ascii := ascii_of_nat (48 + d).

Fixpoint index_key_aux (fuel n : nat) (acc : string) : string :=
  match fuel with
  | O => acc
  | S fuel' =>
      let acc := String (digit_char (n mod 10)) acc in
      if (n <? 10)%nat then acc else index_key_aux fuel' (n / 10) acc
  end.

Definition index_key (n : nat) : string := index_key_aux (S n) n EmptyString.

(** [Object.entries(rawScores)] for a value that passed [not_an_object] *)
Definition entries (v : json) : list (string * json) :=
  match v with
  | JObj fields => fields
  | JArr items => imap (fun i x => (index_key i, x)) items
  | _ => []
  end.

(** [typeof score !== 'number' || score < 1 || score > 5] *)
Definition invalid_1_to_5 (score : json) : bool :=
  match score with
  | JNum q => negb (Qle_bool 1 q) || negb (Qle_bool q 5)
  | _ => true
  end.

Inductive Call :=
| CallBigFive (rawScores : json)
| CallMBTI (rawScores : json)
| CallDISC (rawScores : json).

(** The reply: status 400 with its [error] title and the item or the
    inventory it names, status 500 with its [error] title, or status 200
    with the data and the warnings. *)
Inductive Response (Result : Type) :=
| BadRequest (error : string) (about : option json)
| ServerError (error : string)
| Success (data : list (string * Result)) (warnings : list (string * string)).
Arguments BadRequest {Result}.
Arguments ServerError {Result}.
Arguments Success {Result}.

Section Routes.

Variable Result : Type.

(** The scoring functions of lib/psychometrics/inventories: a result, or
    [inr] for a thrown error with its message. *)
Variables calculateBigFiveScores calculateMBTIScores calculateDISCScores :
  json → Result + string.

(** The validation loop of /api/bigfive: the first offending entry
    decides the reply; [None] when every entry passes. *)
Fixpoint validate_bigfive (es : list (string * json))
  : option (Response Result) :=
  match es with
  | [] => None
  | (itemId, scores) :: rest =>
      match scores with
      | JArr items =>
          if existsb invalid_1_to_5 items
          then Some (BadRequest "Invalid score value" (Some (JStr itemId)))
          else validate_bigfive rest
      | _ => Some (BadRequest "Invalid score format" (Some (JStr itemId)))
      end
  end.

(** POST /api/bigfive on a parsed body: the reply and the scoring calls
    made. *)
Definition bigfive_POST (body : json) : Response Result * list Call :=
  match body with
  | JNull => (ServerError "Failed to calculate Big Five scores", [])
  | _ =>
      let rawScores := get_property body "rawScores" in
      if not_an_object rawScores
      then (BadRequest "Invalid request format" None, [])
      else
        let raw := default JNull rawScores in
        match validate_bigfive (entries raw) with
        | Some reply => (reply, [])
        | None =>
            match calculateBigFiveScores raw with
            | inl results =>
                (Success [("bigfive", results)] [], [CallBigFive raw])
            | inr _ =>
                (ServerError "Failed to calculate Big Five scores",
                 [CallBigFive raw])
            end
        end
  end.

(** The "Validate scores" loop of /api/psychometrics. *)
Fixpoint validate_arrays (es : list (string * json))
  : option (Response Result) :=
  match es with
  | [] => None
  | (itemId, scores) :: rest =>
      match scores with
      | JArr _ => validate_arrays rest
      | _ => Some (BadRequest "Invalid score format" (Some (JStr itemId)))
      end
  end.

Definition is_valid_inventory (v : json) : bool :=
  match v with
  | JStr s => bool_decide (s ∈ ["bigfive"; "mbti"; "disc"])
  | _ => false
  end.

(** [inventories.includes(name)] *)
Definition includes (inventories : list json) (name : string) : bool :=
  existsb (fun v => match v with JStr s => String.eqb s name | _ => false end)
          inventories.

(** One [if (inventories.includes(...)) { try ... catch ... }] block. *)
Definition score_block (wanted : bool) (key : string)
    (calc : json → Result + string) (call : json → Call) (raw : json)
    (acc : list (string * Result) * list (string * string) * list Call)
  : list (string * Result) * list (string * string) * list Call :=
  let '(results, errors, calls) := acc in
  if wanted then
    match calc raw with
    | inl r => (results ++ [(key, r)], errors, calls ++ [call raw])
    | inr m => (results, errors ++ [(key, m)], calls ++ [call raw])
    end
  else acc.

(** POST /api/psychometrics on a parsed body. *)
Definition psychometrics_POST (body : json) : Response Result * list Call :=
  match body with
  | JNull => (ServerError "Failed to calculate psychometric scores", [])
  | _ =>
      let rawScores := get_property body "rawScores" in
      let inventories :=
        default (JArr [JStr "bigfive"; JStr "mbti"; JStr "disc"])
                (get_property body "inventories") in
      if not_an_object rawScores
      then (BadRequest "Invalid request format" None, [])
      else
        match inventories with
        | JArr (inv :: invs) =>
            let names := inv :: invs in
            match List.find (fun v => negb (is_valid_inventory v)) names with
            | Some bad => (BadRequest "Invalid inventory name" (Some bad), [])
            | None =>
                let raw := default JNull rawScores in
                match validate_arrays (entries raw) with
                | Some reply => (reply, [])
                | None =>
                    let acc := ([], [], []) in
                    let acc := score_block (includes names "bigfive") "bigfive"
                                 calculateBigFiveScores CallBigFive raw acc in
                    let acc := score_block (includes names "mbti") "mbti"
                                 calculateMBTIScores CallMBTI raw acc in
                    let acc := score_block (includes names "disc") "disc"
                                 calculateDISCScores CallDISC raw acc in
                    let '(results, errors, calls) := acc in
                    match results with
                    | [] => (ServerError "All calculations failed", calls)
                    | _ => (Success results errors, calls)
                    end
                end
            end
        | _ => (BadRequest "Invalid inventories parameter" None, [])
        end
  end.

End Routes.

(** *** The envelope rule of the specification

    A raw-score envelope is well formed when [rawScores] is an object
    whose entries are arrays of numbers.  For Big Five and MBTI every
    number lies in [1,5]. *)
Definition in_1_to_5 (v : json) : Prop :=
  ∃ q, v = JNum q ∧ (1 <= q <= 5)%Q.

Definition valid_scores (v : json) : Prop :=
  ∃ items, v = JArr items ∧ Forall in_1_to_5 items.

Definition valid_envelope (body : json) : Prop :=
  ∃ fields, get_property body "rawScores" = Some (JObj fields) ∧
            Forall (fun e => valid_scores e.2) fields.

End Endpoints.

(** ** Counting what a run does *)

Module RunEvents.

Import Analyze.

(** Number of model queries among the events. *)
Definition queries (t : list (Event Row)) : nat :=
  length (List.filter
            (fun e => match e with EvQuery _ _ => true | _ => false end) t).

(** The item an event belongs to; an insert belongs to none. *)
Definition event_item (e : Event Row) : option string :=
  match e with
  | EvQuery k _ => Some k
  | EvWrite k _ => Some k
  | EvInsert _ => None
  end.

(** The request counts announced by the "Total items" lines of a log. *)
Definition announced_requests (l : list LogEntry) : list nat :=
  omap (fun e => match e with LogTotal _ r => Some r | _ => None end) l.

End RunEvents.

(** ** Views: the type tooltip and the PSI bars of the summary card *)

Module Views.

Import Mbti.

(** [MBTI_DEFINITIONS] (lib/psychometrics/definitions.ts). *)
Definition MBTI_DEFINITIONS : gmap string string :=
  list_to_map
    [ ("INTJ", "Strategic thinkers with a plan for everything. Analytical, imaginative, and determined.");
      ("INTP", "Innovative inventors with an unquenchable thirst for knowledge. Logical and curious.");
      ("ENTJ", "Bold, imaginative, and strong-willed leaders, always finding a way - or making one.");
      ("ENTP", "Smart and curious thinkers who cannot resist an intellectual challenge.");
      ("INFJ", "Quiet and mystical, yet very inspiring and tireless idealists.");
      ("INFP", "Poetic, kind and altruistic people, always eager to help a good cause.");
      ("ENFJ", "Charismatic and inspiring leaders, able to mesmerize their listeners.");
      ("ENFP", "Enthusiastic, creative and sociable free spirits, who can always find a reason to smile.");
      ("ISTJ", "Practical and fact-minded individuals, whose reliability cannot be doubted.");
      ("ISFJ", "Very dedicated and warm protectors, always ready to defend their loved ones.");
      ("ESTJ", "Excellent administrators, unsurpassed at managing things - or people.");
      ("ESFJ", "Extraordinarily caring, social and popular people, always eager to help.");
      ("ISTP", "Bold and practical experimenters, masters of all kinds of tools.");
      ("ISFP", "Flexible and charming artists, always ready to explore and experience something new.");
      ("ESTP", "Smart, energetic and very perceptive people, who truly enjoy living on the edge.");
      ("ESFP", "Spontaneous, energetic and enthusiastic people - life is never boring around them.") ].

Definition NO_DESCRIPTION : string := "No description available.".

(** [MBTI_DEFINITIONS[mbti] || "No description available."] (MbtiCell);
    the table holds strings, of which only the empty one is falsy.  The
    lookup is that of the table's own keys: a name that a JS object
    inherits ([constructor], [toString], ...) is not a type code and is
    outside this model. *)
Definition description (mbti : string) : string :=
  match MBTI_DEFINITIONS !! mbti with
  | Some EmptyString | None => NO_DESCRIPTION
  | Some d => d
  end.






End Views.

(** ** The MBTI and DISC scoring endpoints *)

Module ScoringRoutes.

Import Endpoints.

(** [typeof score !== 'number'] *)
Definition not_a_number (score : json) : bool :=
  match score with JNum _ => false | _ => true end.

Section Routes.

Variable Result : Type.
Variables calculateMBTIScores calculateDISCScores : json → Result + string.

(** The validation loop of /api/mbti. *)
Fixpoint validate_mbti (es : list (string * json))
  : option (Response Result) :=
  match es with
  | [] => None
  | (itemId, scores) :: rest =>
      match scores with
      | JArr items =>
          if existsb invalid_1_to_5 items
          then Some (BadRequest "Invalid score value" (Some (JStr itemId)))
          else validate_mbti rest
      | _ => Some (BadRequest "Invalid score format" (Some (JStr itemId)))
      end
  end.

(** POST /api/mbti on a parsed body. *)
Definition mbti_POST (body : json) : Response Result * list Call :=
  match body with
  | JNull => (ServerError "Failed to calculate MBTI scores", [])
  | _ =>
      let rawScores := get_property body "rawScores" in
      if not_an_object rawScores
      then (BadRequest "Invalid request format" None, [])
      else
        let raw := default JNull rawScores in
        match validate_mbti (entries raw) with
        | Some reply => (reply, [])
        | None =>
            match calculateMBTIScores raw with
            | inl results =>
                (Success [("mbti", results)] [], [CallMBTI raw])
            | inr _ =>
                (ServerError "Failed to calculate MBTI scores",
                 [CallMBTI raw])
            end
        end
  end.

(** The validation loop of /api/disc: entries must be arrays of numbers,
    of any value. *)
Fixpoint validate_disc (es : list (string * json))
  : option (Response Result) :=
  match es with
  | [] => None
  | (itemId, scores) :: rest =>
      match scores with
      | JArr items =>
          if existsb not_a_number items
          then Some (BadRequest "Invalid score value" (Some (JStr itemId)))
          else validate_disc rest
      | _ => Some (BadRequest "Invalid score format" (Some (JStr itemId)))
      end
  end.

(** POST /api/disc on a parsed body. *)
Definition disc_POST (body : json) : Response Result * list Call :=
  match body with
  | JNull => (ServerError "Failed to calculate DISC scores", [])
  | _ =>
      let rawScores := get_property body "rawScores" in
      if not_an_object rawScores
      then (BadRequest "Invalid request format" None, [])
      else
        let raw := default JNull rawScores in
        match validate_disc (entries raw) with
        | Some reply => (reply, [])
        | None =>
            match calculateDISCScores raw with
            | inl results =>
                (Success [("disc", results)] [], [CallDISC raw])
            | inr _ =>
                (ServerError "Failed to calculate DISC scores",
                 [CallDISC raw])
            end
        end
  end.

End Routes.

(** An entry the DISC endpoint takes: an array of numbers. *)
Definition numeric_scores (v : json) : Prop :=
  ∃ items, v = JArr items ∧ Forall (fun x => ∃ q, x = JNum q) items.

(** The replies that report a validation error. *)
Definition is_bad_request {Result : Type} (reply : Response Result) : Prop :=
  ∃ error about, reply = BadRequest error about.

End ScoringRoutes.

(** ** POST /api/analyze and the save action *)

Module AnalyzeRoute.

Import Endpoints.

(** The arguments [runAnalysis] is started with.  The inventories have
    passed the name check, so they are strings; [persona] and
    [systemPrompt] are passed on as received. *)
Record Launch := {
  l_apiKey : string;
  l_model : string;
  l_inventories : list string;
  l_persona : json;
  l_systemPrompt : json
}.

(** The reply: status 503, 400 or 500 with the [error] text (and the name
    a 400 is about), or status 200 "Analysis invoked" with its details;
    the estimated time is a range of minutes. *)
Inductive Reply :=
| Unavailable (error : string)
| Refused (error : string) (about : option json)
| Failed (error : string)
| Invoked (model : string) (persona : json) (inventories : list string)
          (minutes_from minutes_to : nat).

(** A valid inventory name, as a string. *)
Definition inventory_name (v : json) : option string :=
  match v with
  | JStr s => if is_valid_inventory v then Some s else None
  | _ => None
  end.

(** POST /api/analyze on a parsed body, with the API key of the
    environment: the reply, and the run it starts in the background, if
    any. *)
Definition analyze_POST (apiKey : option string) (body : json)
  : Reply * option Launch :=
  match body with
  | JNull => (Failed "Failed to invoke analysis", None)
  | _ =>
      let model := get_property body "model" in
      let inventories :=
        default (JArr [JStr "bigfive"]) (get_property body "inventories") in
      let persona :=
        default (JStr "Base Model") (get_property body "persona") in
      let systemPrompt :=
        default (JStr EmptyString) (get_property body "systemPrompt") in
      match apiKey with
      | None | Some EmptyString =>
          (Unavailable "OpenRouter API key not configured", None)
      | Some key =>
          match model with
          | Some (JStr (String c m)) =>
              let model := String c m in
              match inventories with
              | JArr (inv :: invs) =>
                  let names := inv :: invs in
                  match List.find (fun v => negb (is_valid_inventory v)) names
                  with
                  | Some bad => (Refused "Invalid inventory" (Some bad), None)
                  | None =>
                      let names := omap inventory_name names in
                      (Invoked model persona names
                         (length names * 2) (length names * 3),
                       Some {| l_apiKey := key; l_model := model;
                               l_inventories := names;
                               l_persona := persona;
                               l_systemPrompt := systemPrompt |})
                  end
              | _ => (Refused "At least one inventory is required" None, None)
              end
          | _ => (Refused "model is required" None, None)
          end
      end
  end.

End AnalyzeRoute.

(** ** saveRun (app/actions.ts) *)

Module Actions.

Import Analyze.

(** The row [saveRun] inserts: the one of [runAnalysis] without logs. *)
Record SavedRow := {
  model_name : string;
  persona : string;
  config_systemPrompt : string;
  results : gmap string Mbti.InventoryResult;
  created_at : Z
}.

Inductive SaveResult :=
| Saved
| NotSaved (error : string).

(** The time values a [Date] can hold; [toISOString] throws a RangeError
    on any other. *)
Definition valid_time (t : Z) : bool :=
  (-8640000000000000 <=? t) && (t <=? 8640000000000000).

(** [saveRun(profile)]: the result it resolves with and the rows it
    handed to the client. *)
Definition saveRun (supabase : option (SavedRow → InsertOutcome))
    (profile : ModelProfile) : SaveResult * list SavedRow :=
  match supabase with
  | None => (NotSaved "Supabase is not configured", [])
  | Some insert =>
      if valid_time (timestamp profile) then
        let row := {| model_name := modelName profile;
                      persona := persona_or_default (Analyze.persona profile);
                      config_systemPrompt := systemPrompt profile;
                      results := Analyze.results profile;
                      created_at := timestamp profile |} in
        match insert row with
        | InsertOk => (Saved, [row])
        | InsertError m => (NotSaved m, [row])
        | InsertRejected m => (NotSaved m, [row])
        end
      else (NotSaved "Invalid time value", [])
  end.

(** The stored fields of a row of [runAnalysis]. *)
Definition without_logs (row : Row) : SavedRow :=
  {| model_name := Analyze.model_name row;
     persona := row_persona row;
     config_systemPrompt := Analyze.config_systemPrompt row;
     results := row_results row;
     created_at := Analyze.created_at row |}.

End Actions.

(** * Properties *)

(** ** Derived MBTI *)

Module MbtiFacts.

Import Mbti.

Local Open Scope Q_scope.

Lemma or_midpoint_stored scores k s :
  scores !! k = Some s → ¬ s == 0 → or_midpoint scores k = s.
Proof.
  intros Hk Hs. unfold or_midpoint. rewrite Hk.
  destruct (Qeq_bool s 0) eqn:E; [|done].
  apply Qeq_bool_iff in E. contradiction.
Qed.

Lemma or_midpoint_fallback scores k :
  scores !! k = None ∨ (∃ s, scores !! k = Some s ∧ s == 0) →
  or_midpoint scores k = MIDPOINT.
Proof.
  unfold or_midpoint. intros [-> | (s & -> & Hs)]; [done|].
  apply Qeq_bool_iff in Hs. by rewrite Hs.
Qed.

Lemma letter_high x hi lo : hi ≠ lo → (letter x hi lo = hi ↔ 72 <= x).
Proof.
  intros Hne. unfold letter, MIDPOINT.
  destruct (Qle_bool 72 x) eqn:E.
  - apply Qle_bool_iff in E. tauto.
  - split; [congruence|]. intros H. apply Qle_bool_iff in H. congruence.
Qed.

Lemma letter_low x hi lo : hi ≠ lo → (letter x hi lo = lo ↔ x < 72).
Proof.
  intros Hne. unfold letter, MIDPOINT.
  destruct (Qle_bool 72 x) eqn:E.
  - apply Qle_bool_iff in E. split; [congruence|]. intros H.
    exfalso. apply (Qlt_not_le _ _ H E).
  - split; [|done]. intros _. apply Qnot_le_lt. intros H.
    apply Qle_bool_iff in H. congruence.
Qed.

Lemma psi_of_range x : 24 <= x <= 120 → 0 <= psi_of x <= 1.
Proof.
  intros [Hlo Hhi]. unfold psi_of, MIDPOINT, MAX_DELTA, Qdiv.
  change (/ 48) with (1 # 48).
  apply Qabs_case; intros; split; lra.
Qed.


(** What the result holds for the [i]-th polarity pair, in terms of the
    score the transform works with. *)
Lemma derived_dimension r i d :
  dimensions !! i = Some d →
  let x := or_midpoint (traitScores r) (domain d) in
  let res := deriveMBTIFromBigFive r in
  psi_at res (psi_key d) = Some (psi_of x) ∧
  trait_at res (high d) = Some x ∧
  trait_at res (low d) = Some (144 - x) ∧
  letter_at res i = Some (letter x (high d) (low d)) ∧
  high d ≠ low d.
Proof.
  intros Hd.
  destruct i as [|[|[|[|i]]]]; simpl in Hd; try discriminate;
    injection Hd as <-; cbn [domain psi_key high low];
    (split; [reflexivity|]); (split; [reflexivity|]);
    (split; [reflexivity|]); (split; [|done]);
    unfold letter_at, deriveMBTIFromBigFive, letter; cbn [type];
    repeat match goal with |- context [Qle_bool ?a ?b] =>
      destruct (Qle_bool a b) end; reflexivity.
Qed.

Lemma derived_type_shape r :
  ∃ t, type (deriveMBTIFromBigFive r) = Some t ∧ String.length t = 4%nat ∧
       Forall allowed_letter (list_ascii_of_string t).
Proof.
  eexists. split; [reflexivity|].
  unfold letter.
  repeat match goal with |- context [Qle_bool ?a ?b] =>
    destruct (Qle_bool a b) end;
    (split; [reflexivity|]);
    repeat constructor; apply (bool_decide_unpack _); reflexivity.
Qed.

(** C6, as amended: the four letters are decided by comparing with 72 the
    score the transform works with, which is the stored domain score of
    E, O, A, C, or 72 when that entry is missing or zero: the high-pole
    letter exactly when it is at least 72, the low-pole letter exactly
    when it is below; the type has four characters, all of them among
    E I N S F T J P; and results that agree on E, O, A and C (whatever
    they hold for N) give the same derived result. *)
Theorem derived_type_letters (r : InventoryResult) :
  let res := deriveMBTIFromBigFive r in
  (∀ i d, dimensions !! i = Some d →
     let x := or_midpoint (traitScores r) (domain d) in
     (∀ s, traitScores r !! domain d = Some s → ¬ s == 0 → x = s) ∧
     (letter_at res i = Some (high d) ↔ 72 <= x) ∧
     (letter_at res i = Some (low d) ↔ x < 72)) ∧
  (∃ t, type res = Some t ∧ String.length t = 4%nat ∧
        Forall allowed_letter (list_ascii_of_string t)) ∧
  (∀ r', (∀ k, k ∈ ["E"; "O"; "A"; "C"] →
            traitScores r' !! k = traitScores r !! k) →
         deriveMBTIFromBigFive r' = deriveMBTIFromBigFive r).
Proof.
  cbv zeta. split; [|split].
  - intros i d Hd.
    destruct (derived_dimension r i d Hd) as (_ & _ & _ & Hl & Hne).
    split; [intros s Hs Hz; by apply or_midpoint_stored|].
    rewrite Hl. split.
    + rewrite <- (letter_high _ (high d) (low d) Hne).
      split; [by intros [= ->]|by intros ->].
    + rewrite <- (letter_low _ (high d) (low d) Hne).
      split; [by intros [= ->]|by intros ->].
  - apply derived_type_shape.
  - intros r' Hagree. unfold deriveMBTIFromBigFive, or_midpoint.
    rewrite !Hagree by set_solver. reflexivity.
Qed.

(** A stored score of exactly 72 gives the high-pole letter E. *)
Lemma derived_type_letters_witness :
  letter_at (deriveMBTIFromBigFive (big_five [("E", 72)])) 0 = Some "E".
Proof.
  pose proof (derived_type_letters (big_five [("E", 72)])) as [H _].
  specialize (H 0%nat _ eq_refl). cbv zeta in H.
  destruct H as (Hx & Hhi & _).
  apply Hhi. rewrite (Hx 72); [apply Qle_refl|reflexivity|discriminate].
Defined.

(** C6, as stated, fails: a stored E score of 0 is below 72, yet the
    first letter is the high-pole letter E. *)
Lemma letter_rule_on_stored_score_fails : ¬ letter_rule_on_stored_score.
Proof.
  intros H.
  specialize (H (big_five [("E", 0)]) 0%nat _ 0 eq_refl eq_refl).
  destruct H as [H _].
  assert (Hle : 72 <= 0) by (apply H; reflexivity).
  revert Hle. unfold Qle. simpl. lia.
Qed.




(** C8: when E, O, A and C are stored with values in [24,120], the PSI
    map holds a value for each of the four pairs and every value it holds
    lies in [0,1]. *)
Theorem derived_psi_in_unit_interval (r : InventoryResult) :
  (∀ k, k ∈ ["E"; "O"; "A"; "C"] →
        ∃ s, traitScores r !! k = Some s ∧ 24 <= s <= 120) →
  let res := deriveMBTIFromBigFive r in
  (∀ d, d ∈ dimensions → is_Some (psi_at res (psi_key d))) ∧
  (∀ k p, psi_at res k = Some p → 0 <= p <= 1).
Proof.
  intros Hrange res.
  assert (Hx : ∀ k, k ∈ ["E"; "O"; "A"; "C"] →
               0 <= psi_of (or_midpoint (traitScores r) k) <= 1).
  { intros k Hk. destruct (Hrange k Hk) as (s & Hs & Hlo & Hhi).
    apply psi_of_range. unfold or_midpoint. rewrite Hs.
    destruct (Qeq_bool s 0); [unfold MIDPOINT; split; discriminate|done]. }
  split.
  - intros d Hd. apply list_elem_of_lookup in Hd as [i Hd].
    destruct (derived_dimension r i d Hd) as (Hp & _). by eexists.
  - intros k p. unfold res, psi_at, deriveMBTIFromBigFive; cbn [psi].
    intros Hk.
    repeat (apply lookup_insert_Some in Hk as [[_ <-]|[_ Hk]];
            [apply Hx; repeat constructor|]).
    by rewrite lookup_empty in Hk.
Qed.

(** Scores 24, 72, 96 and 120: the PSI of J/P is |120 - 72| / 48, within
    [0,1]. *)
Lemma derived_psi_in_unit_interval_witness :
  psi_at (deriveMBTIFromBigFive
            (big_five [("E", 24); ("O", 72); ("A", 96); ("C", 120)])) "JP"
    = Some (psi_of 120) ∧
  0 <= psi_of 120 <= 1.
Proof.
  split; [reflexivity|].
  refine (proj2 (derived_psi_in_unit_interval
            (big_five [("E", 24); ("O", 72); ("A", 96); ("C", 120)]) _)
            "JP" (psi_of 120) eq_refl).
  intros k Hk. set_unfold in Hk.
  destruct Hk as [->|[->|[->|[->|[]]]]]; eexists;
    (split; [reflexivity|]); split; discriminate.
Defined.

(** C10: when the entry of a pair's domain is missing, or holds 0, the
    transform works with 72 for it: the PSI of the pair is 0, its letter
    is the high-pole letter, and both poles hold 72. *)
Theorem missing_or_zero_score_defaults (r : InventoryResult) (i : nat)
    (d : Dimension) :
  dimensions !! i = Some d →
  traitScores r !! domain d = None ∨
    (∃ s, traitScores r !! domain d = Some s ∧ s == 0) →
  let res := deriveMBTIFromBigFive r in
  or_midpoint (traitScores r) (domain d) = MIDPOINT ∧
  letter_at res i = Some (high d) ∧
  ∃ p hi lo : Q,
    psi_at res (psi_key d) = Some p ∧ p == 0 ∧
    trait_at res (high d) = Some hi ∧ hi == 72 ∧
    trait_at res (low d) = Some lo ∧ lo == 72.
Proof.
  intros Hd Hmiss res.
  destruct (derived_dimension r i d Hd) as (Hp & Hhi & Hlo & Hl & _).
  fold res in Hp, Hhi, Hlo, Hl.
  rewrite (or_midpoint_fallback _ _ Hmiss) in Hp, Hhi, Hlo, Hl.
  split; [by apply or_midpoint_fallback|].
  split; [exact Hl|].
  exists (psi_of MIDPOINT), MIDPOINT, (144 - MIDPOINT).
  repeat split; try done.
Qed.

(** A result without an O entry, and one whose C entry is 0. *)
Lemma missing_or_zero_score_defaults_witness :
  letter_at (deriveMBTIFromBigFive (big_five [("E", 30)])) 1 = Some "N" ∧
  letter_at (deriveMBTIFromBigFive (big_five [("C", 0)])) 3 = Some "J".
Proof.
  split.
  - refine (proj1 (proj2 (missing_or_zero_score_defaults
              (big_five [("E", 30)]) 1%nat _ eq_refl _))).
    left. reflexivity.
  - refine (proj1 (proj2 (missing_or_zero_score_defaults
              (big_five [("C", 0)]) 3%nat _ eq_refl _))).
    right. exists 0. split; reflexivity.
Defined.

End MbtiFacts.

(** ** Response parsing *)

Module ParserFacts.

Import Parser.

Lemma one_to_five_is_word c : is_1_to_5 c = true → is_word c = true.
Proof.
  unfold is_1_to_5, is_word, is_digit, between. intros H.
  apply andb_true_iff in H as [H1 H2].
  apply N.leb_le in H1, H2.
  replace (48 <=? code c)%N with true by (symmetry; apply N.leb_le; lia).
  replace (code c <=? 57)%N with true by (symmetry; apply N.leb_le; lia).
  reflexivity.
Qed.

Lemma one_to_five_value c : is_1_to_5 c = true → 1 <= digit_value c <= 5.
Proof.
  unfold is_1_to_5, between, digit_value. intros H.
  apply andb_true_iff in H as [H1 H2].
  apply N.leb_le in H1, H2. lia.
Qed.

(** The test made at one start position, when the character is 1-5. *)
Lemma likert_test prev c next :
  word_boundary prev (Some c) && is_1_to_5 c && word_boundary (Some c) next
    = true ↔
  is_1_to_5 c = true ∧ is_word_opt prev = false ∧ is_word_opt next = false.
Proof.
  unfold word_boundary. cbn [is_word_opt].
  destruct (is_1_to_5 c) eqn:E.
  - rewrite (one_to_five_is_word c E).
    destruct (is_word_opt prev), (is_word_opt next); cbn; intuition congruence.
  - rewrite andb_false_r. cbn. intuition congruence.
Qed.

Lemma standalone_after_start s i d :
  standalone_after None s i d ↔ standalone_at s i d.
Proof.
  unfold standalone_after, standalone_at.
  split; intros (pre & post & ? & ? & ? & Hp & ?); exists pre, post;
    repeat split; try done; by destruct (last_char pre).
Qed.

Lemma standalone_after_here prev c rest d :
  standalone_after prev (String c rest) 0 d ↔
  d = c ∧ is_1_to_5 c = true ∧ is_word_opt prev = false ∧
  is_word_opt (head_char rest) = false.
Proof.
  split.
  - intros (pre & post & Hs & Hl & Hd & Hp & Hn).
    destruct pre; [|discriminate]. cbn in Hs, Hp.
    injection Hs as -> ->. done.
  - intros (-> & ? & ? & ?). by exists EmptyString, rest.
Qed.

Lemma last_char_cons pre : ∀ c,
  last_char (String c pre) = Some (from_option id c (last_char pre)).
Proof.
  induction pre as [|c' pre IH]; intros c; [done|].
  change (last_char (String c (String c' pre)))
    with (last_char (String c' pre)).
  by rewrite IH.
Qed.

Lemma before_cons prev c pre :
  from_option Some prev (last_char (String c pre)) =
  from_option Some (Some c) (last_char pre).
Proof. rewrite last_char_cons. by destruct (last_char pre). Qed.

Lemma standalone_after_next prev c rest j d :
  standalone_after prev (String c rest) (S j) d ↔
  standalone_after (Some c) rest j d.
Proof.
  split.
  - intros (pre & post & Hs & Hl & Hd & Hp & Hn).
    destruct pre as [|c' pre]; [discriminate|].
    cbn in Hs. injection Hs as -> ->. cbn in Hl. injection Hl as <-.
    exists pre, post. repeat split; try done.
    by rewrite <- (before_cons prev).
  - intros (pre & post & -> & <- & Hd & Hp & Hn).
    exists (String c pre), post. repeat split; try done.
    by rewrite before_cons.
Qed.

(** The leftmost match is the first standalone digit; no match means
    there is none. *)
Lemma match_likert_spec s : ∀ prev,
  match match_likert prev s with
  | Some d => ∃ i, standalone_after prev s i d ∧
                   ∀ j d', (j < i)%nat → ¬ standalone_after prev s j d'
  | None => ∀ i d, ¬ standalone_after prev s i d
  end.
Proof.
  induction s as [|c rest IH]; intros prev.
  - cbn. intros i d (pre & post & Hs & _). by destruct pre.
  - cbn [match_likert].
    destruct (word_boundary prev (Some c) && is_1_to_5 c
              && word_boundary (Some c) (head_char rest)) eqn:T.
    + apply likert_test in T. exists 0%nat. split; [|lia].
      by apply standalone_after_here.
    + assert (Hhere : ∀ d, ¬ standalone_after prev (String c rest) 0 d).
      { intros d H. apply standalone_after_here in H as (-> & H).
        apply likert_test in H. congruence. }
      specialize (IH (Some c)).
      destruct (match_likert (Some c) rest) as [d|].
      * destruct IH as (i & Hi & Hmin). exists (S i). split.
        -- by apply standalone_after_next.
        -- intros [|j] d' Hj; [apply Hhere|].
           rewrite standalone_after_next. apply Hmin. lia.
      * intros [|i] d; [apply Hhere|].
        rewrite standalone_after_next. apply IH.
Qed.

(** C3: the Likert parser records the value of the first standalone
    digit 1-5 of the response, and 3 when the response holds none; it is
    defined on every response and its result is one of 1, 2, 3, 4, 5. *)
Theorem likert_first_standalone_digit (response : string) :
  ((∃ d, first_standalone response d ∧
         parse_likert response = digit_value d) ∨
   (no_standalone response ∧ parse_likert response = 3)) ∧
  1 <= parse_likert response <= 5.
Proof.
  unfold parse_likert.
  pose proof (match_likert_spec response None) as H.
  destruct (match_likert None response) as [d|].
  - destruct H as (i & Hi & Hmin).
    assert (Hd : is_1_to_5 d = true) by (by destruct Hi as (? & ? & ? & ? & ? & ?)).
    assert (Hv : parseInt (String d EmptyString) = digit_value d).
    { unfold parseInt. cbn. lia. }
    rewrite Hv. split; [|by apply one_to_five_value].
    left. exists d. split; [|done]. exists i. split.
    + by apply standalone_after_start.
    + intros j d' Hj Hs. apply (Hmin j d' Hj). by apply standalone_after_start.
  - split; [|lia]. right. split; [|done].
    intros i d Hs. apply (H i d). by apply standalone_after_start.
Qed.

Example parse_likert_examples :
  parse_likert <$> ["4"; "10"; "x_3"; "1st, then 5"; "-2"; "3.5"; ""]
    = [4; 3; 3; 5; 2; 3; 3].
Proof. reflexivity. Qed.

(** *** Numbers of a forced-choice response *)

Example parse_choice_examples :
  parse_choice <$> ["1, 4"; "12"; "7, 9"; "0,0"; "2 and 3 and 4"; "none"]
    = [3; 0; 68; -11; 12; 0].
Proof. reflexivity. Qed.

Lemma append_cons x (a b : string) : String x a +:+ b = String x (a +:+ b).
Proof. reflexivity. Qed.



Lemma append_not_empty (a : string) c b :
  a +:+ String c b ≠ EmptyString.
Proof. by destruct a. Qed.










End ParserFacts.

(** ** Sampling *)

Module SamplingFacts.

Import Analyze.

(** The catch value does not depend on the item type. *)
Lemma sample_round_rejected item err :
  (sample_round item (Rejected err)).1 = 3.
Proof. reflexivity. Qed.

(** What a round records is what the two parsers of [Parser] return. *)
Lemma parse_response_value item response :
  (parse_response item response).1 =
    match type item with
    | choice_binary => Parser.parse_choice response
    | likert_5 => Parser.parse_likert response
    end.
Proof.
  unfold parse_response, Parser.parse_choice, Parser.parse_likert.
  destruct (type item).
  - by destruct (Parser.match_likert None response).
  - by destruct (Parser.digit_runs response) as [|m0 [|m1 rest]].
Qed.

Section Loop.

Variable query : Query.

Local Abbreviation samples_of := (Analyze.samples_of query).
Local Abbreviation task_events := (Analyze.task_events query).
Local Abbreviation item_task := (Analyze.item_task query).
Local Abbreviation written := (Analyze.written query).

Lemma sample_loop_spec item n : ∀ k acc st,
  let res := sample_loop query item n k acc st in
  res.1 = acc ++ ((fun j => (sample_round item (query item j)).1) <$> seq k n) ∧
  rawScores res.2 = rawScores st ∧
  trace res.2 = trace st ++ (EvQuery (id item) <$> seq k n).
Proof.
  induction n as [|n IH]; intros k acc st; cbn [sample_loop seq fmap list_fmap].
  - cbn. by rewrite !app_nil_r.
  - destruct (sample_round item (query item k)) as [v line] eqn:E.
    destruct (IH (S k) (acc ++ [v])
                 (push_log line (emit (EvQuery (id item) k) st)))
      as (H1 & H2 & H3).
    cbv zeta in *. rewrite H1, H2, H3. cbn [rawScores trace push_log emit fst].
    by rewrite <- !app_assoc.
Qed.

Lemma samples_of_length item : length (samples_of item) = 5%nat.
Proof. reflexivity. Qed.

Lemma item_task_rawScores st item :
  rawScores (item_task st item) = <[id item := samples_of item]> (rawScores st).
Proof.
  unfold Analyze.item_task.
  pose proof (sample_loop_spec item SAMPLES 0 [] st) as (H1 & H2 & _).
  destruct (sample_loop query item SAMPLES 0 [] st) as [scores st'].
  cbn in *. by rewrite H1, H2.
Qed.

Lemma item_task_trace st item :
  trace (item_task st item) = trace st ++ task_events item.
Proof.
  unfold Analyze.item_task.
  pose proof (sample_loop_spec item SAMPLES 0 [] st) as (H1 & _ & H3).
  destruct (sample_loop query item SAMPLES 0 [] st) as [scores st'].
  cbn in *. rewrite H1, H3. by rewrite <- app_assoc.
Qed.

Lemma tasks_rawScores l : ∀ st,
  rawScores (foldl item_task st l) = written (rawScores st) l.
Proof.
  induction l as [|item l IH]; intros st; [done|].
  cbn [foldl]. by rewrite IH, item_task_rawScores.
Qed.

Lemma tasks_trace l : ∀ st,
  trace (foldl item_task st l) = trace st ++ (l ≫= task_events).
Proof.
  induction l as [|item l IH]; intros st; cbn [foldl mbind list_bind].
  - by rewrite app_nil_r.
  - change (list_bind _ _ task_events l) with (l ≫= task_events).
    by rewrite IH, item_task_trace, <- app_assoc.
Qed.

Lemma written_snoc m l item :
  written m (l ++ [item]) = <[id item := samples_of item]> (written m l).
Proof. unfold Analyze.written. by rewrite foldl_app. Qed.

Lemma written_is_Some m l k :
  is_Some (written m l !! k) ↔ is_Some (m !! k) ∨ k ∈ id <$> l.
Proof.
  induction l as [|item l IH] using rev_ind.
  - cbn. rewrite elem_of_nil. tauto.
  - rewrite written_snoc, fmap_app, lookup_insert_is_Some', IH.
    rewrite elem_of_app, list_fmap_singleton, list_elem_of_singleton.
    intuition congruence.
Qed.

Lemma written_value m l k v :
  written m l !! k = Some v →
  m !! k = Some v ∨ ∃ item, item ∈ l ∧ id item = k ∧ v = samples_of item.
Proof.
  induction l as [|item l IH] using rev_ind; [by left|].
  rewrite written_snoc. intros [[<- <-]|[_ H]]%lookup_insert_Some.
  - right. exists item. split_and!; try done.
    apply elem_of_app. right. apply list_elem_of_here.
  - destruct (IH H) as [?|(item' & ? & ? & ?)]; [by left|].
    right. exists item'. split_and!; try done.
    apply elem_of_app. by left.
Qed.

Lemma written_NoDup m l item :
  NoDup (id <$> l) → item ∈ l →
  written m l !! id item = Some (samples_of item).
Proof.
  induction l as [|x l IH] using rev_ind; [set_solver|].
  rewrite fmap_app, written_snoc. intros Hnd Hin.
  apply NoDup_app in Hnd as (Hl & Hx & _).
  apply elem_of_app in Hin as [Hin|Hin].
  - rewrite lookup_insert_ne; [by apply IH|].
    intros Heq. apply (Hx (id item)); [by apply list_elem_of_fmap_2|].
    rewrite <- Heq. cbn. set_solver.
  - apply list_elem_of_singleton in Hin as ->. by rewrite lookup_insert_eq.
Qed.

Lemma writes_to_app k t1 t2 :
  writes_to k (t1 ++ t2) = (writes_to k t1 + writes_to k t2)%nat.
Proof. unfold writes_to. by rewrite List.filter_app, length_app. Qed.

Lemma writes_to_task k item :
  writes_to k (task_events item) =
    if bool_decide (id item = k) then 1%nat else 0%nat.
Proof.
  unfold Analyze.task_events. rewrite writes_to_app.
  change (writes_to k (EvQuery (id item) <$> seq 0 SAMPLES)) with 0%nat.
  unfold writes_to. cbn. by destruct (bool_decide (id item = k)).
Qed.

Lemma writes_to_tasks k l :
  writes_to k (l ≫= task_events) =
    length (filter (fun item => id item = k) l).
Proof.
  induction l as [|item l IH]; [done|].
  cbn [mbind list_bind]. rewrite writes_to_app, writes_to_task.
  change (list_bind _ _ task_events l) with (l ≫= task_events). rewrite IH.
  rewrite filter_cons. by case_bool_decide; destruct (decide _).
Qed.



Lemma count_id_NoDup l item :
  NoDup (id <$> l) → item ∈ l →
  length (filter (fun item' => id item' = id item) l) = 1%nat.
Proof.
  induction l as [|x l IH]; [set_solver|].
  rewrite fmap_cons, NoDup_cons, filter_cons. intros [Hx Hl] Hin.
  apply elem_of_cons in Hin as [->|Hin].
  - rewrite decide_True by done. cbn. f_equal.
    apply length_zero_iff_nil, elem_of_nil_inv. intros y Hy.
    apply list_elem_of_filter in Hy as [Hy Hin]. apply Hx.
    rewrite <- Hy. by apply list_elem_of_fmap_2.
  - rewrite decide_False; [by apply IH|].
    intros Heq. apply Hx. rewrite Heq. by apply list_elem_of_fmap_2.
Qed.

Variable sched : list InventoryItem → list InventoryItem.

Lemma chunk_loop_spec allItems fuel : ∀ i st,
  let order := run_order sched allItems fuel i in
  rawScores (chunk_loop query sched allItems fuel i st)
    = written (rawScores st) order ∧
  trace (chunk_loop query sched allItems fuel i st)
    = trace st ++ (order ≫= task_events).
Proof.
  induction fuel as [|fuel IH]; intros i st; cbn [chunk_loop run_order].
  - cbn. by rewrite app_nil_r.
  - destruct (i <? length allItems)%nat; [|cbn; by rewrite app_nil_r].
    cbv zeta. destruct (IH (i + CHUNK_SIZE)%nat
      (push_log (LogProgress
         (Nat.min (i + length (take CHUNK_SIZE (drop i allItems)))
                  (length allItems)) (length allItems))
         (promise_all query sched (take CHUNK_SIZE (drop i allItems)) st)))
      as [H1 H2].
    cbv zeta in H1, H2. rewrite H1, H2. cbn [rawScores trace push_log].
    unfold promise_all. rewrite tasks_rawScores, tasks_trace.
    unfold Analyze.written. rewrite foldl_app, bind_app, app_assoc. done.
Qed.

Hypothesis sched_perm : ∀ l, sched l ≡ₚ l.

Lemma run_order_perm allItems fuel : ∀ i,
  (length allItems - i ≤ fuel)%nat →
  run_order sched allItems fuel i ≡ₚ drop i allItems.
Proof.
  induction fuel as [|fuel IH]; intros i Hfuel; cbn [run_order].
  - rewrite drop_ge by lia. done.
  - destruct (Nat.ltb_spec i (length allItems)) as [Hlt|Hge].
    + rewrite sched_perm, IH by (unfold CHUNK_SIZE; lia).
      rewrite <- drop_drop. apply reflexive_eq, take_drop.
    + rewrite drop_ge by lia. done.
Qed.

Lemma run_order_all allItems :
  run_order sched allItems (length allItems) 0 ≡ₚ allItems.
Proof. apply (run_order_perm allItems _ 0%nat). lia. Qed.

End Loop.

(** C2: whatever the calls of the query function do, the sampling loop
    ends, and its [rawScores] then holds an entry for the id of every
    item and for nothing else; every entry has exactly five samples; the
    number of writes of an entry is the number of items that carry its
    id, so that with the pairwise distinct ids of a catalog every entry
    is written exactly once and holds the five samples of its item in
    round order. *)
Theorem raw_scores_one_entry_per_item (query : Query)
    (sched : list InventoryItem → list InventoryItem)
    (allItems : list InventoryItem) (logs0 : list LogEntry) :
  (∀ l, sched l ≡ₚ l) →
  let st := runSampling query sched allItems (initial_store logs0) in
  (∀ k, is_Some (rawScores st !! k) ↔ k ∈ id <$> allItems) ∧
  (∀ k v, rawScores st !! k = Some v → length v = 5%nat) ∧
  (∀ k, writes_to k (trace st) =
        length (filter (fun item => id item = k) allItems)) ∧
  (NoDup (id <$> allItems) →
   ∀ item, item ∈ allItems →
     writes_to (id item) (trace st) = 1%nat ∧
     rawScores st !! id item = Some (samples_of query item)).
Proof.
  intros Hperm st.
  destruct (chunk_loop_spec query sched allItems (length allItems) 0
              (initial_store logs0)) as [Hraw Htrace].
  pose proof (run_order_all sched Hperm allItems) as Horder.
  fold (runSampling query sched allItems (initial_store logs0)) in Hraw, Htrace.
  fold st in Hraw, Htrace. cbv zeta in Hraw, Htrace. cbn in Hraw, Htrace.
  set (order := run_order sched allItems (length allItems) 0) in *.
  assert (Hcount : ∀ k, writes_to k (trace st) =
            length (filter (fun item => id item = k) allItems)).
  { intros k. by rewrite Htrace, writes_to_tasks, Horder. }
  split_and!.
  - intros k. rewrite Hraw, written_is_Some, Horder, lookup_empty.
    split; [intros [H|H]; [by destruct H|done]|by right].
  - intros k v. rewrite Hraw. intros [[=]|(item & _ & _ & ->)]%written_value.
    apply samples_of_length.
  - exact Hcount.
  - intros Hnd item Hin. split.
    + rewrite Hcount. by apply count_id_NoDup.
    + rewrite Hraw. apply written_NoDup; by rewrite Horder.
Qed.

(** With a query function that always fails, and pairwise distinct ids,
    every entry is five times 3, for either item type. *)
Lemma always_failing_query_records_3
    (sched : list InventoryItem → list InventoryItem)
    (allItems : list InventoryItem) (logs0 : list LogEntry) (err : string) :
  (∀ l, sched l ≡ₚ l) →
  NoDup (id <$> allItems) →
  ∀ item, item ∈ allItems →
    rawScores (runSampling (fun _ _ => Rejected err) sched allItems
                 (initial_store logs0)) !! id item
      = Some [3; 3; 3; 3; 3].
Proof.
  intros Hperm Hnd item Hin. unfold runSampling.
  destruct (chunk_loop_spec (fun _ _ => Rejected err) sched allItems
              (length allItems) 0 (initial_store logs0)) as [-> _].
  pose proof (run_order_all sched Hperm allItems) as Horder.
  change [3; 3; 3; 3; 3] with (samples_of (fun _ _ => Rejected err) item).
  apply written_NoDup; by rewrite Horder.
Qed.

(** Six items, so that the loop takes two turns; every second call of
    the query function fails. *)
Lemma raw_scores_one_entry_per_item_witness :
  let items :=
    (fun k => {| id := k; type := likert_5; payload := Statement k |})
      <$> ["N1"; "N2"; "N3"; "N4"; "N5"; "N6"] in
  let query : Query :=
    fun _ k => if Nat.even k then Resolved "4" else Rejected "timeout" in
  let st := runSampling query (fun l => l) items (initial_store []) in
  writes_to "N6" (trace st) = 1%nat ∧
  rawScores st !! "N6" = Some [4; 3; 4; 3; 4].
Proof.
  intros items query st.
  destruct (raw_scores_one_entry_per_item query (fun l => l) items []
              (fun l => reflexivity l)) as (_ & _ & _ & H).
  assert (Hnd : NoDup (id <$> items))
    by (apply (bool_decide_unpack _); vm_compute; reflexivity).
  assert (Hin : {| id := "N6"; type := likert_5; payload := Statement "N6" |}
                ∈ items)
    by (unfold items; cbn; do 5 apply list_elem_of_further;
        apply list_elem_of_here).
  exact (H Hnd _ Hin).
Defined.

(** C1, at a forced-choice item whose every query fails: each of the five
    rounds records 3, where the fallback of the item type is 0.  (The
    branch for an unparsable forced-choice response does record 0, and
    3 is also what the response 1, 4 is recorded as.) *)
Theorem rejected_choice_round_records_3 :
  let item := {| id := "disc_1"; type := choice_binary;
                 payload := Candidates ["Bold"; "Lively"; "Calm"; "Exact"] |} in
  let st := runSampling (fun _ _ => Rejected "timeout") (fun l => l) [item]
              (initial_store []) in
  rawScores st !! "disc_1" = Some [3; 3; 3; 3; 3] ∧
  spec_fallback (type item) = 0 ∧
  (sample_round item (Resolved "no answer")).1 = 0 ∧
  (sample_round item (Resolved "1, 4")).1 = 3.
Proof. vm_compute. done. Qed.

(** ** The run *)


(** A run over a one-item catalog whose store reports an error. *)
Example run_with_failing_store :
  let item := {| id := "N1"; type := likert_5;
                 payload := Statement "Worry about things" |} in
  let run := runAnalysis [item] [] []
               (fun _ => Normal (Mbti.big_five [("E", 80%Q)]))
               (fun _ => Throw "unused") (fun _ => Throw "unused")
               (Some (fun _ => InsertError "timeout")) 0
               (fun _ _ => Resolved "4") (fun l => l)
               "model" ["bigfive"] "" "" in
  settled run = Fulfilled ∧
  length (inserts (trace (store run))) = 1%nat ∧
  row_persona <$> inserts (trace (store run)) = ["Base Model"] ∧
  logs (store run) =
    [LogStart "model" ""; LogTotal 1 5;
     LogScore "N1" 4; LogScore "N1" 4; LogScore "N1" 4; LogScore "N1" 4;
     LogScore "N1" 4; LogProgress 1 1; LogCalculating; LogSaving;
     LogDatabaseError "timeout"; LogCompleted].
Proof. vm_compute. done. Qed.

End SamplingFacts.

(** ** Scoring endpoints *)

Module EndpointFacts.

Import Endpoints.

Lemma invalid_1_to_5_false v : invalid_1_to_5 v = false → in_1_to_5 v.
Proof.
  destruct v as [| |q| | |]; try discriminate. cbn.
  intros H. apply orb_false_iff in H as [H1 H2].
  apply negb_false_iff, Qle_bool_iff in H1, H2. by exists q.
Qed.

Section Routes.

Variable Result : Type.
Variables calculateBigFiveScores calculateMBTIScores calculateDISCScores :
  json → Result + string.

Lemma validate_bigfive_passes es :
  validate_bigfive Result es = None →
  Forall (fun e => valid_scores e.2) es.
Proof.
  induction es as [|[itemId scores] es IH]; [constructor|].
  cbn. destruct scores as [| | | |items|]; try discriminate.
  destruct (existsb invalid_1_to_5 items) eqn:E; [discriminate|].
  intros H. constructor; [|by apply IH].
  exists items. split; [done|]. apply Forall_forall. intros v Hv.
  apply invalid_1_to_5_false.
  destruct (invalid_1_to_5 v) eqn:Ev; [|done].
  assert (existsb invalid_1_to_5 items = true); [|congruence].
  apply existsb_exists. exists v. split; [|done]. by apply list_elem_of_In.
Qed.

(** /api/bigfive calls the scoring function only when [rawScores] is an
    object (or an array) all of whose entries are arrays of numbers in
    [1,5]; every other body is answered without a scoring call. *)
Lemma bigfive_scores_checked_input body :
  (bigfive_POST Result calculateBigFiveScores body).2 ≠ [] →
  ∃ raw, get_property body "rawScores" = Some raw ∧
         Forall (fun e => valid_scores e.2) (entries raw).
Proof.
  unfold bigfive_POST. destruct body as [| | | | |fields]; try (by cbn).
  destruct (get_property (JObj fields) "rawScores") as [raw|]; [|by cbn].
  destruct (not_an_object (Some raw)); [by cbn|].
  cbn [default from_option id].
  destruct (validate_bigfive Result (entries raw)) eqn:E; [by cbn|].
  intros _. exists raw. split; [done|]. by apply validate_bigfive_passes.
Qed.

Lemma validate_arrays_passes es :
  validate_arrays Result es = None →
  Forall (fun e => ∃ items, e.2 = JArr items) es.
Proof.
  induction es as [|[itemId scores] es IH]; [constructor|].
  cbn. destruct scores as [| | | |items|]; try discriminate.
  intros H. constructor; [by exists items|by apply IH].
Qed.

(** /api/psychometrics calls a scoring function only when [rawScores]
    is an object (or an array) whose entries are arrays and every
    requested inventory name is known; the values inside the arrays are
    not looked at. *)
Lemma psychometrics_scores_checked_shape body :
  (psychometrics_POST Result calculateBigFiveScores calculateMBTIScores
     calculateDISCScores body).2 ≠ [] →
  ∃ raw names,
    get_property body "rawScores" = Some raw ∧
    default (JArr [JStr "bigfive"; JStr "mbti"; JStr "disc"])
            (get_property body "inventories") = JArr names ∧
    Forall (fun v => is_valid_inventory v = true) names ∧
    Forall (fun e => ∃ items, e.2 = JArr items) (entries raw).
Proof.
  unfold psychometrics_POST. destruct body as [| | | | |fields]; try (by cbn).
  destruct (get_property (JObj fields) "rawScores") as [raw|]; [|by cbn].
  destruct (not_an_object (Some raw)); [by cbn|].
  destruct (default _ (get_property (JObj fields) "inventories"))
    as [| | | |[|inv invs]|]; try (by cbn).
  destruct (List.find _ (inv :: invs)) eqn:F; [by cbn|].
  cbn [default from_option id].
  destruct (validate_arrays Result (entries raw)) eqn:E; [by cbn|].
  intros _. exists raw, (inv :: invs). split_and!; try done.
  - apply Forall_forall. intros v Hv.
    pose proof (find_none _ _ F v (proj1 (list_elem_of_In _ _) Hv)) as H.
    by apply negb_false_iff in H.
  - by apply validate_arrays_passes.
Qed.

End Routes.

(** C5, at /api/psychometrics with a Big Five entry of 7 (and likewise a
    text entry): the envelope is not well formed, yet the reply is not a
    validation error and the Big Five scoring function is called on the
    raw scores.  /api/bigfive answers the same raw scores with status 400
    and makes no call. *)
Theorem psychometrics_scores_unchecked_values (Result : Type)
    (calculateBigFiveScores calculateMBTIScores calculateDISCScores :
       json → Result + string) :
  let POST := psychometrics_POST Result calculateBigFiveScores
                calculateMBTIScores calculateDISCScores in
  let envelope raw :=
    JObj [("rawScores", raw); ("inventories", JArr [JStr "bigfive"])] in
  let out_of_range := JObj [("N1", JArr [JNum 4; JNum 7; JNum 4])] in
  let not_a_number := JObj [("N1", JArr [JStr "high"])] in
  (¬ valid_envelope (envelope out_of_range) ∧
   (POST (envelope out_of_range)).2 = [CallBigFive out_of_range] ∧
   (∀ error about, (POST (envelope out_of_range)).1 ≠ BadRequest error about) ∧
   bigfive_POST Result calculateBigFiveScores (envelope out_of_range)
     = (BadRequest "Invalid score value" (Some (JStr "N1")), [])) ∧
  (¬ valid_envelope (envelope not_a_number) ∧
   (POST (envelope not_a_number)).2 = [CallBigFive not_a_number] ∧
   (∀ error about, (POST (envelope not_a_number)).1 ≠ BadRequest error about) ∧
   bigfive_POST Result calculateBigFiveScores (envelope not_a_number)
     = (BadRequest "Invalid score value" (Some (JStr "N1")), [])).
Proof.
  intros POST envelope out_of_range not_a_number. split.
  - split_and!.
    + intros (fields & Hraw & Hall). injection Hraw as <-.
      apply Forall_cons in Hall as [(items & Hitems & Hnum) _].
      injection Hitems as <-.
      apply Forall_cons in Hnum as [_ Hnum].
      apply Forall_cons in Hnum as [(q & Hq & _ & Hle) _].
      injection Hq as <-. revert Hle. unfold Qle. cbn. lia.
    + unfold POST, psychometrics_POST, score_block. cbn.
      by destruct (calculateBigFiveScores out_of_range).
    + intros error about. unfold POST, psychometrics_POST, score_block. cbn.
      by destruct (calculateBigFiveScores out_of_range).
    + reflexivity.
  - split_and!.
    + intros (fields & Hraw & Hall). injection Hraw as <-.
      apply Forall_cons in Hall as [(items & Hitems & Hnum) _].
      injection Hitems as <-.
      apply Forall_cons in Hnum as [(q & Hq & _) _]. discriminate.
    + unfold POST, psychometrics_POST, score_block. cbn.
      by destruct (calculateBigFiveScores not_a_number).
    + intros error about. unfold POST, psychometrics_POST, score_block. cbn.
      by destruct (calculateBigFiveScores not_a_number).
    + reflexivity.
Qed.

End EndpointFacts.

(** ** More on the sampling loop *)

Module SamplingMore.

Import Analyze RunEvents.

Lemma match_likert_1_to_5 s : ∀ prev d,
  Parser.match_likert prev s = Some d → Parser.is_1_to_5 d = true.
Proof.
  induction s as [|c rest IH]; intros prev d; [discriminate|].
  cbn [Parser.match_likert].
  destruct (Parser.word_boundary prev (Some c) && Parser.is_1_to_5 c
            && Parser.word_boundary (Some c) (Parser.head_char rest)) eqn:T.
  - intros [= <-]. by apply ParserFacts.likert_test in T as (? & _).
  - apply IH.
Qed.

Lemma likert_round_in_range item out :
  type item = likert_5 → 1 ≤ (sample_round item out).1 ≤ 5.
Proof.
  intros Hty. destruct out as [response|err]; [|cbn; lia].
  cbn [sample_round]. rewrite SamplingFacts.parse_response_value, Hty.
  unfold Parser.parse_likert.
  destruct (Parser.match_likert None response) as [d|] eqn:E; [|lia].
  apply match_likert_1_to_5 in E.
  apply ParserFacts.one_to_five_value in E.
  unfold Parser.parseInt. cbn. lia.
Qed.

Lemma round_never_announces item out :
  announced_requests [(sample_round item out).2] = [].
Proof.
  destruct out as [response|err]; [|done].
  cbn [sample_round]. unfold parse_response.
  destruct (type item).
  - by destruct (Parser.match_likert None response).
  - by destruct (Parser.digit_runs response) as [|m0 [|m1 rest]].
Qed.

Lemma announced_app l1 l2 :
  announced_requests (l1 ++ l2) = announced_requests l1 ++ announced_requests l2.
Proof. unfold announced_requests. apply omap_app. Qed.

Lemma queries_app t1 t2 : queries (t1 ++ t2) = (queries t1 + queries t2)%nat.
Proof. unfold queries. by rewrite List.filter_app, length_app. Qed.

Section Loop.

Variable query : Query.

Lemma sample_loop_logs item n : ∀ k acc st,
  ∃ lines, logs (sample_loop query item n k acc st).2 = logs st ++ lines ∧
           announced_requests lines = [].
Proof.
  induction n as [|n IH]; intros k acc st; cbn [sample_loop].
  - exists []. by rewrite app_nil_r.
  - destruct (sample_round item (query item k)) as [v line] eqn:E.
    destruct (IH (S k) (acc ++ [v])
                 (push_log line (emit (EvQuery (id item) k) st)))
      as (lines & -> & Hl).
    exists (line :: lines). cbn [logs push_log emit].
    rewrite <- app_assoc. split; [done|].
    change (line :: lines) with ([line] ++ lines).
    rewrite announced_app, Hl, app_nil_r.
    pose proof (round_never_announces item (query item k)) as H.
    by rewrite E in H.
Qed.

Lemma item_task_logs st item :
  ∃ lines, logs (item_task query st item) = logs st ++ lines ∧
           announced_requests lines = [].
Proof.
  unfold item_task.
  destruct (sample_loop_logs item SAMPLES 0 [] st) as (lines & H & Hl).
  destruct (sample_loop query item SAMPLES 0 [] st) as [scores st'].
  exists lines. by cbn in *.
Qed.

Lemma tasks_logs l : ∀ st,
  ∃ lines, logs (foldl (item_task query) st l) = logs st ++ lines ∧
           announced_requests lines = [].
Proof.
  induction l as [|item l IH]; intros st; cbn [foldl].
  - exists []. by rewrite app_nil_r.
  - destruct (IH (item_task query st item)) as (lines & -> & Hl).
    destruct (item_task_logs st item) as (lines0 & -> & Hl0).
    exists (lines0 ++ lines). rewrite <- app_assoc. split; [done|].
    by rewrite announced_app, Hl0, Hl.
Qed.

Lemma queries_task item : queries (task_events query item) = 5%nat.
Proof. reflexivity. Qed.

Lemma queries_tasks l :
  queries (l ≫= task_events query) = (5 * length l)%nat.
Proof.
  induction l as [|item l IH]; [done|].
  cbn [mbind list_bind]. rewrite queries_app, queries_task.
  change (list_bind _ _ (task_events query) l) with (l ≫= task_events query).
  rewrite IH. cbn [length]. lia.
Qed.

Lemma event_item_tasks l e :
  e ∈ l ≫= task_events query →
  ∃ item, item ∈ l ∧ event_item e = Some (id item).
Proof.
  intros (item & He & Hin)%list_elem_of_bind. exists item. split; [done|].
  unfold task_events in He. apply elem_of_app in He as [He|He].
  - apply list_elem_of_fmap in He as (k & -> & _). done.
  - apply list_elem_of_singleton in He as ->. done.
Qed.

Variable sched : list InventoryItem → list InventoryItem.

(** Past the end of the list the loop does nothing. *)
Lemma run_order_ge allItems fuel i :
  (length allItems ≤ i)%nat → run_order sched allItems fuel i = [].
Proof.
  intros Hi. destruct fuel; [done|]. cbn [run_order].
  by destruct (Nat.ltb_spec i (length allItems)); [lia|].
Qed.

Lemma chunk_loop_ge allItems fuel i st :
  (length allItems ≤ i)%nat → chunk_loop query sched allItems fuel i st = st.
Proof.
  intros Hi. destruct fuel; [done|]. cbn [chunk_loop].
  by destruct (Nat.ltb_spec i (length allItems)); [lia|].
Qed.

Lemma chunk_loop_logs allItems fuel : ∀ i st,
  ∃ lines,
    logs (chunk_loop query sched allItems fuel i st) = logs st ++ lines ∧
    announced_requests lines = [].
Proof.
  induction fuel as [|fuel IH]; intros i st; cbn [chunk_loop].
  - exists []. by rewrite app_nil_r.
  - destruct (Nat.ltb_spec i (length allItems)) as [Hlt|Hge].
    + cbv zeta.
      set (chunk := take CHUNK_SIZE (drop i allItems)).
      set (line := LogProgress _ _).
      destruct (IH (i + CHUNK_SIZE)%nat
                  (push_log line (promise_all query sched chunk st)))
        as (lines & -> & Hl).
      unfold promise_all. cbn [logs push_log].
      destruct (tasks_logs (sched chunk) st) as (lines0 & -> & Hl0).
      exists (lines0 ++ [line] ++ lines). rewrite <- !app_assoc.
      split; [done|]. by rewrite !announced_app, Hl0, Hl.
    + exists []. by rewrite app_nil_r.
Qed.

Lemma chunk_loop_last allItems fuel : ∀ i st,
  (i < length allItems)%nat → (length allItems - i ≤ fuel)%nat →
  last (logs (chunk_loop query sched allItems fuel i st))
    = Some (LogProgress (length allItems) (length allItems)).
Proof.
  induction fuel as [|fuel IH]; intros i st Hlt Hfuel; [lia|].
  cbn [chunk_loop].
  destruct (Nat.ltb_spec i (length allItems)) as [_|]; [|lia].
  cbv zeta.
  destruct (Nat.ltb_spec (i + CHUNK_SIZE) (length allItems)) as [Hn|Hn].
  - apply IH; unfold CHUNK_SIZE in *; lia.
  - rewrite chunk_loop_ge by done. cbn [logs push_log]. rewrite last_snoc.
    do 2 f_equal. rewrite length_take, length_drop.
    unfold CHUNK_SIZE in *. lia.
Qed.

Lemma run_order_split allItems c : ∀ fuel i,
  (∀ l, sched l ≡ₚ l) →
  (length allItems - i ≤ fuel)%nat →
  ∃ first,
    run_order sched allItems fuel i =
      first ++ run_order sched allItems (fuel - c) (i + c * CHUNK_SIZE) ∧
    first ≡ₚ take (c * CHUNK_SIZE) (drop i allItems).
Proof.
  intros fuel i Hperm. revert fuel i.
  induction c as [|c IH]; intros fuel i Hfuel.
  - exists []. rewrite Nat.sub_0_r, Nat.add_0_r. done.
  - destruct (Nat.ltb_spec i (length allItems)) as [Hlt|Hge].
    + destruct fuel as [|fuel]; [lia|]. cbn [run_order].
      destruct (Nat.ltb_spec i (length allItems)) as [_|]; [|lia].
      replace (S fuel - S c)%nat with (fuel - c)%nat by lia.
      replace (i + S c * CHUNK_SIZE)%nat
        with (i + CHUNK_SIZE + c * CHUNK_SIZE)%nat by (unfold CHUNK_SIZE; lia).
      replace (S c * CHUNK_SIZE)%nat
        with (CHUNK_SIZE + c * CHUNK_SIZE)%nat by (unfold CHUNK_SIZE; lia).
      destruct (IH fuel (i + CHUNK_SIZE)%nat) as (first & -> & Hfirst);
        [unfold CHUNK_SIZE; lia|].
      exists (sched (take CHUNK_SIZE (drop i allItems)) ++ first).
      rewrite <- app_assoc. split; [done|].
      rewrite Hperm, Hfirst, <- drop_drop.
      by rewrite take_take_drop.
    + exists []. rewrite !run_order_ge by lia.
      rewrite drop_ge by lia. by rewrite take_nil.
Qed.

End Loop.

(** A run with no item touches nothing; a run with items goes through the
    whole list: the last line its loop logs reports all items done. *)
Theorem sampling_reaches_the_end (query : Query)
    (sched : list InventoryItem → list InventoryItem)
    (allItems : list InventoryItem) (st : Store) :
  (allItems = [] → runSampling query sched allItems st = st) ∧
  (allItems ≠ [] →
   last (logs (runSampling query sched allItems st))
     = Some (LogProgress (length allItems) (length allItems))).
Proof.
  split.
  - by intros ->.
  - intros Hne. apply chunk_loop_last; [|lia].
    destruct allItems; [done|cbn; lia].
Qed.

(** Every entry of [rawScores] is the five samples of an item of the list
    that carries its id; when that item is a Likert item, all five lie in
    1..5, whatever the model answered and whichever calls failed. *)
Theorem likert_entries_in_range (query : Query)
    (sched : list InventoryItem → list InventoryItem)
    (allItems : list InventoryItem) (logs0 : list LogEntry)
    (k : string) (v : list Z) :
  (∀ l, sched l ≡ₚ l) →
  rawScores (runSampling query sched allItems (initial_store logs0)) !! k
    = Some v →
  ∃ item, item ∈ allItems ∧ id item = k ∧ v = samples_of query item ∧
          (type item = likert_5 → Forall (fun x => 1 ≤ x ≤ 5) v).
Proof.
  intros Hperm. unfold runSampling.
  destruct (SamplingFacts.chunk_loop_spec query sched allItems
              (length allItems) 0 (initial_store logs0)) as [-> _].
  cbn [rawScores initial_store].
  intros [[=]|(item & Hin & Hid & ->)]%SamplingFacts.written_value.
  exists item. split_and!; try done.
  - by rewrite <- (SamplingFacts.run_order_all sched Hperm allItems).
  - intros Hty. unfold samples_of. apply Forall_fmap, Forall_forall.
    intros j _. by apply likert_round_in_range.
Qed.

Lemma likert_entries_in_range_witness :
  ∃ item,
    item ∈ [ {| id := "N1"; type := likert_5; payload := Statement "N1" |} ] ∧
    [5; 3; 5; 3; 5] =
      samples_of (fun _ k => if Nat.even k then Resolved "5" else Rejected "x")
        item ∧
    Forall (fun x => 1 ≤ x ≤ 5) [5; 3; 5; 3; 5].
Proof.
  destruct (likert_entries_in_range
              (fun _ k => if Nat.even k then Resolved "5" else Rejected "x")
              (fun l => l)
              [ {| id := "N1"; type := likert_5; payload := Statement "N1" |} ]
              [] "N1" [5; 3; 5; 3; 5] (fun l => reflexivity l) eq_refl)
    as (item & Hin & Hid & Hv & Hrange).
  exists item. split_and!; [done..|].
  apply Hrange. apply list_elem_of_singleton in Hin. by subst item.
Defined.

(** Batches run in sequence: at every batch boundary the events of a run
    split into those of the items before the boundary, followed by those
    of the items after it; no query or write of a later batch comes before
    one of an earlier batch. *)
Theorem batches_run_in_sequence (query : Query)
    (sched : list InventoryItem → list InventoryItem)
    (allItems : list InventoryItem) (logs0 : list LogEntry) (c : nat) :
  (∀ l, sched l ≡ₚ l) →
  ∃ before after,
    trace (runSampling query sched allItems (initial_store logs0))
      = before ++ after ∧
    (∀ e, e ∈ before →
       ∃ item, item ∈ take (c * CHUNK_SIZE) allItems ∧
               event_item e = Some (id item)) ∧
    (∀ e, e ∈ after →
       ∃ item, item ∈ drop (c * CHUNK_SIZE) allItems ∧
               event_item e = Some (id item)) ∧
    queries before = (5 * length (take (c * CHUNK_SIZE) allItems))%nat.
Proof.
  intros Hperm. unfold runSampling.
  destruct (SamplingFacts.chunk_loop_spec query sched allItems
              (length allItems) 0 (initial_store logs0)) as [_ ->].
  cbn [trace initial_store app].
  destruct (run_order_split sched allItems c (length allItems) 0 Hperm)
    as (first & -> & Hfirst); [lia|].
  cbn [drop Nat.add] in *.
  pose proof (SamplingFacts.run_order_perm sched Hperm allItems
                (length allItems - c) (c * CHUNK_SIZE)) as Hrest.
  rewrite bind_app.
  exists (first ≫= task_events query),
         (run_order sched allItems (length allItems - c) (c * CHUNK_SIZE)
            ≫= task_events query).
  split_and!; [done| | |].
  - intros e (item & Hin & He)%event_item_tasks.
    exists item. by rewrite <- Hfirst.
  - intros e (item & Hin & He)%event_item_tasks.
    exists item. rewrite <- Hrest; [done|unfold CHUNK_SIZE; lia].
  - by rewrite queries_tasks, Hfirst.
Qed.

Lemma batches_run_in_sequence_witness :
  ∃ before after,
    trace (runSampling (fun _ _ => Resolved "2") (fun l => l)
             ((fun k => {| id := k; type := likert_5; payload := Statement k |})
                <$> ["a"; "b"; "c"; "d"; "e"; "f"; "g"])
             (initial_store [])) = before ++ after ∧
    queries before = 25%nat.
Proof.
  destruct (batches_run_in_sequence (fun _ _ => Resolved "2") (fun l => l)
             ((fun k => {| id := k; type := likert_5; payload := Statement k |})
                <$> ["a"; "b"; "c"; "d"; "e"; "f"; "g"])
             [] 1 (fun l => reflexivity l))
    as (before & after & Ht & _ & _ & Hq).
  exists before, after. split; [exact Ht|exact Hq].
Defined.

(** Which catalogs a run takes depends only on which of the three names
    the request holds: their order and repetitions do not matter, the
    items always come as Big Five, then DISC, then MBTI, and no catalog is
    taken twice. *)
Theorem collect_items_by_membership
    (BIG_FIVE_ITEMS DISC_ITEMS MBTI_ITEMS : list InventoryItem)
    (inventories inventories' : list string) :
  (∀ name, name ∈ ["bigfive"; "disc"; "mbti"] →
           (name ∈ inventories ↔ name ∈ inventories')) →
  collect_items BIG_FIVE_ITEMS DISC_ITEMS MBTI_ITEMS inventories
    = collect_items BIG_FIVE_ITEMS DISC_ITEMS MBTI_ITEMS inventories' ∧
  collect_items BIG_FIVE_ITEMS DISC_ITEMS MBTI_ITEMS inventories
    `sublist_of` BIG_FIVE_ITEMS ++ DISC_ITEMS ++ MBTI_ITEMS.
Proof.
  intros Hsame.
  assert (Hinc : ∀ name, name ∈ ["bigfive"; "disc"; "mbti"] →
            includes inventories name = includes inventories' name).
  { intros name Hname. unfold includes. apply bool_decide_ext.
    by apply Hsame. }
  unfold collect_items. split.
  - rewrite !Hinc by (repeat constructor). done.
  - assert (Hpiece : ∀ (b : bool) (l : list InventoryItem),
              (if b then l else []) `sublist_of` l).
    { intros [] l; [done|apply sublist_nil_l]. }
    assert (Hshape :
      (if includes inventories "mbti"
       then (if includes inventories "disc"
             then (if includes inventories "bigfive"
                   then [] ++ BIG_FIVE_ITEMS else []) ++ DISC_ITEMS
             else if includes inventories "bigfive"
                  then [] ++ BIG_FIVE_ITEMS else []) ++ MBTI_ITEMS
       else if includes inventories "disc"
            then (if includes inventories "bigfive"
                  then [] ++ BIG_FIVE_ITEMS else []) ++ DISC_ITEMS
            else if includes inventories "bigfive"
                 then [] ++ BIG_FIVE_ITEMS else [])
      = (if includes inventories "bigfive" then BIG_FIVE_ITEMS else []) ++
        (if includes inventories "disc" then DISC_ITEMS else []) ++
        (if includes inventories "mbti" then MBTI_ITEMS else [])).
    { destruct (includes inventories "bigfive"),
        (includes inventories "disc"), (includes inventories "mbti");
        cbn [app]; rewrite ?app_nil_r, <- ?app_assoc; done. }
    rewrite Hshape. repeat apply sublist_app; apply Hpiece.
Qed.

Lemma collect_items_by_membership_witness :
  let item k := {| id := k; type := likert_5; payload := Statement k |} in
  collect_items [item "N1"] [item "disc_1"] [item "mbti_1"]
    ["mbti"; "bigfive"; "mbti"; "other"]
  = collect_items [item "N1"] [item "disc_1"] [item "mbti_1"]
      ["bigfive"; "mbti"].
Proof.
  intros item.
  refine (proj1 (collect_items_by_membership _ _ _ _ _ _)).
  intros name Hname. rewrite !elem_of_cons in Hname.
  destruct Hname as [->|[->|[->|H]]]; [..|by apply elem_of_nil in H];
    apply (bool_decide_unpack _); reflexivity.
Defined.

(** What the second half of the run adds to the store: no query, and no
    "Total items" line. *)
Lemma score_and_save_effects
    (calculateBigFiveScores calculateDISCScores calculateMBTIScores :
       gmap string (list Z) → Completion Mbti.InventoryResult)
    (supabase : option (Row → InsertOutcome)) (now : Z)
    (model : string) (inventories : list string)
    (persona systemPrompt : string) (st : Store) :
  let r := score_and_save calculateBigFiveScores calculateDISCScores
             calculateMBTIScores supabase now model inventories persona
             systemPrompt st in
  queries (trace r.1.1) = queries (trace st) ∧
  ∃ lines, logs r.1.1 = logs st ++ lines ∧ announced_requests lines = [].
Proof.
  unfold score_and_save.
  destruct (calculate_results _ _ _ inventories _) as [res c].
  destruct c as [[]|m].
  - unfold save. destruct supabase as [insert|].
    + destruct (insert _); cbn [fst snd trace logs push_log emit];
        (split; [rewrite ?queries_app; cbn; lia|]);
        eexists; rewrite <- ?app_assoc; (split; [reflexivity|]);
        reflexivity.
    + cbn [fst snd trace logs push_log emit]. split; [done|].
      eexists. rewrite <- ?app_assoc. split; reflexivity.
  - cbn [fst snd trace logs push_log emit]. split; [done|].
    by exists [LogCalculating].
Qed.

(** The request count announced at the start of a run is the number of
    queries the run makes: five per item of the requested catalogs, none
    more after the sampling loop. *)
Theorem announced_requests_are_made
    (BIG_FIVE_ITEMS DISC_ITEMS MBTI_ITEMS : list InventoryItem)
    (calculateBigFiveScores calculateDISCScores calculateMBTIScores :
       gmap string (list Z) → Completion Mbti.InventoryResult)
    (supabase : option (Row → InsertOutcome)) (now : Z)
    (query : Query) (sched : list InventoryItem → list InventoryItem)
    (model : string) (inventories : list string)
    (persona systemPrompt : string) :
  (∀ l, sched l ≡ₚ l) →
  let run := runAnalysis BIG_FIVE_ITEMS DISC_ITEMS MBTI_ITEMS
               calculateBigFiveScores calculateDISCScores calculateMBTIScores
               supabase now query sched
               model inventories persona systemPrompt in
  let allItems := collect_items BIG_FIVE_ITEMS DISC_ITEMS MBTI_ITEMS
                    inventories in
  queries (trace (store run)) = (5 * length allItems)%nat ∧
  announced_requests (logs (store run)) = [queries (trace (store run))].
Proof.
  intros Hperm run allItems.
  set (st0 := initial_store
                [LogStart model persona;
                 LogTotal (length allItems) (length allItems * 5)]).
  set (sampled := runSampling query sched allItems st0).
  assert (Hq : queries (trace sampled) = (5 * length allItems)%nat).
  { unfold sampled, runSampling.
    destruct (SamplingFacts.chunk_loop_spec query sched allItems
                (length allItems) 0 st0) as [_ ->].
    cbn [trace st0 initial_store app].
    by rewrite queries_tasks, (SamplingFacts.run_order_all sched Hperm). }
  destruct (chunk_loop_logs query sched allItems (length allItems) 0 st0)
    as (lines & Hlogs & Hlines).
  fold (runSampling query sched allItems st0) in Hlogs. fold sampled in Hlogs.
  destruct (score_and_save_effects calculateBigFiveScores calculateDISCScores
              calculateMBTIScores supabase now model inventories persona
              systemPrompt sampled) as (Hq' & lines' & Hlogs' & Hlines').
  assert (Hrun : run =
    match score_and_save calculateBigFiveScores calculateDISCScores
            calculateMBTIScores supabase now model inventories persona
            systemPrompt sampled with
    | (st, p, Normal _) =>
        {| store := st; profile := p; settled := Fulfilled |}
    | (st, p, Throw m) =>
        {| store := push_log (LogFatal m) st; profile := p;
           settled := Fulfilled |}
    end) by reflexivity.
  rewrite Hrun. clear Hrun.
  destruct (score_and_save _ _ _ _ _ _ _ _ _ sampled) as [[st' p] c].
  cbn [fst snd] in Hq', Hlogs'.
  assert (Hann : announced_requests (logs st') = [(length allItems * 5)%nat]).
  { rewrite Hlogs', Hlogs, !announced_app, Hlines, Hlines'. done. }
  destruct c as [[]|m]; cbn [store trace logs push_log];
    rewrite ?announced_app, Hann, Hq', Hq;
    (split; [done|]); cbn; do 2 f_equal; lia.
Qed.

Lemma announced_requests_are_made_witness :
  let item k := {| id := k; type := likert_5; payload := Statement k |} in
  let run := runAnalysis [item "N1"; item "N2"] [] [item "mbti_1"]
               (fun _ => Normal (Mbti.big_five []))
               (fun _ => Throw "unused") (fun _ => Throw "scoring failed")
               None 0 (fun _ _ => Resolved "4") (fun l => l)
               "model" ["mbti"; "bigfive"] "" "" in
  queries (trace (store run)) = 15%nat ∧
  announced_requests (logs (store run)) = [queries (trace (store run))].
Proof.
  intros item run.
  exact (announced_requests_are_made [item "N1"; item "N2"] [] [item "mbti_1"]
           (fun _ => Normal (Mbti.big_five []))
           (fun _ => Throw "unused") (fun _ => Throw "scoring failed")
           None 0 (fun _ _ => Resolved "4") (fun l => l)
           "model" ["mbti"; "bigfive"] "" "" (fun l => reflexivity l)).
Defined.


End SamplingMore.

(** ** More on the derived MBTI *)

Module MbtiMore.

Import Mbti.

Local Open Scope Q_scope.





(** Mirroring a stored score around the midpoint (s and 144 - s, neither
    of them 0) keeps the PSI of the pair and, unless s is 72 itself,
    exchanges its letter. *)
Theorem mirrored_score_flips_letter (r r' : InventoryResult) (i : nat)
    (d : Dimension) (s : Q) :
  dimensions !! i = Some d →
  traitScores r !! domain d = Some s →
  traitScores r' !! domain d = Some (144 - s) →
  ¬ s == 0 → ¬ s == 144 →
  (∃ p p', psi_at (deriveMBTIFromBigFive r) (psi_key d) = Some p ∧
           psi_at (deriveMBTIFromBigFive r') (psi_key d) = Some p' ∧
           p == p') ∧
  (¬ s == 72 →
   (letter_at (deriveMBTIFromBigFive r) i = Some (high d) ↔
    letter_at (deriveMBTIFromBigFive r') i = Some (low d))).
Proof.
  intros Hd Hs Hs' H0 H144.
  destruct (MbtiFacts.derived_dimension r i d Hd) as (Hp & _ & _ & Hl & Hne).
  destruct (MbtiFacts.derived_dimension r' i d Hd) as (Hp' & _ & _ & Hl' & _).
  rewrite (MbtiFacts.or_midpoint_stored _ _ _ Hs H0) in Hp, Hl.
  assert (H0' : ¬ 144 - s == 0) by (intros H; apply H144; lra).
  rewrite (MbtiFacts.or_midpoint_stored _ _ _ Hs' H0') in Hp', Hl'.
  split.
  - exists (psi_of s), (psi_of (144 - s)). split_and!; [done..|].
    unfold psi_of, MIDPOINT, MAX_DELTA, Qdiv. change (/ 48) with (1 # 48).
    apply Qabs_case; intros; apply Qabs_case; intros; lra.
  - intros H72. rewrite Hl, Hl'.
    pose proof (MbtiFacts.letter_high s _ _ Hne) as Hhi.
    pose proof (MbtiFacts.letter_low (144 - s) _ _ Hne) as Hlo.
    split.
    + intros [= H]. f_equal. apply Hlo. apply Hhi in H.
      destruct (Qlt_le_dec 72 s); [lra|]. exfalso. apply H72. lra.
    + intros [= H]. f_equal. apply Hhi. apply Hlo in H. lra.
Qed.

Lemma mirrored_score_flips_letter_witness :
  letter_at (deriveMBTIFromBigFive (big_five [("A", 100)])) 2 = Some "F" ↔
  letter_at (deriveMBTIFromBigFive (big_five [("A", 44)])) 2 = Some "T".
Proof.
  refine (proj2 (mirrored_score_flips_letter (big_five [("A", 100)])
                   (big_five [("A", 44)]) 2%nat _ 100 eq_refl eq_refl eq_refl
                   _ _) _); discriminate.
Defined.

End MbtiMore.

(** ** More on the parsers *)

Module ParserMore.

Import Parser.

Lemma last_char_word pre :
  Forall (fun c => is_word c = true) (list_ascii_of_string pre) →
  is_word_opt (last_char pre) = false → pre = EmptyString.
Proof.
  destruct pre as [|c pre]; [done|]. intros Hall.
  rewrite ParserFacts.last_char_cons. cbn [is_word_opt].
  assert (Hin : from_option id c (last_char pre)
                ∈ list_ascii_of_string (String c pre)).
  { clear Hall. revert c. induction pre as [|c' pre IH]; intros c.
    - cbn. apply list_elem_of_here.
    - rewrite ParserFacts.last_char_cons. cbn [from_option id].
      change (list_ascii_of_string (String c (String c' pre)))
        with (c :: list_ascii_of_string (String c' pre)).
      apply list_elem_of_further. apply IH. }
  rewrite Forall_forall in Hall. rewrite (Hall _ Hin). discriminate.
Qed.

(** A response made of word characters only (letters, digits, underscore)
    and longer than one character is recorded as the neutral 3: a number
    such as 10 or 45, or a digit glued to a letter, is never read as a
    score. *)
Theorem likert_glued_digits_are_neutral (response : string) :
  Forall (fun c => is_word c = true) (list_ascii_of_string response) →
  (2 ≤ String.length response)%nat →
  parse_likert response = 3.
Proof.
  intros Hall Hlen. unfold parse_likert.
  pose proof (ParserFacts.match_likert_spec response None) as H.
  destruct (match_likert None response) as [d|]; [|done].
  exfalso. destruct H as (i & (pre & post & -> & _ & _ & Hpre & Hpost) & _).
  assert (Hchars : list_ascii_of_string (pre +:+ String d post)
                   = list_ascii_of_string pre ++ d :: list_ascii_of_string post).
  { clear. induction pre as [|c pre IH]; [done|].
    rewrite ParserFacts.append_cons. cbn. by rewrite IH. }
  rewrite Hchars in Hall. apply Forall_app in Hall as [Hp Hq].
  apply Forall_cons in Hq as [_ Hq].
  assert (pre = EmptyString) as ->.
  { apply last_char_word; [done|]. by destruct (last_char pre). }
  destruct post as [|c post].
  - change (2 ≤ 1)%nat in Hlen. lia.
  - apply Forall_cons in Hq as [Hc _]. cbn in Hpost. congruence.
Qed.

Lemma likert_glued_digits_are_neutral_witness :
  parse_likert "45" = 3 ∧ parse_likert "5a" = 3.
Proof.
  split; apply likert_glued_digits_are_neutral; cbn; try lia;
    repeat constructor.
Defined.



End ParserMore.

(** ** Views *)

Module ViewFacts.

Import Mbti Views.

Local Open Scope Q_scope.

(** Every type the transform can produce has an entry in the table of
    descriptions, so the tooltip of a derived type never falls back to
    the "No description available." text. *)
Theorem derived_type_has_description (r : InventoryResult) :
  ∃ t d, type (deriveMBTIFromBigFive r) = Some t ∧
         MBTI_DEFINITIONS !! t = Some d ∧
         description t = d ∧ d ≠ NO_DESCRIPTION.
Proof.
  unfold deriveMBTIFromBigFive, letter. cbn [type].
  repeat match goal with |- context [Qle_bool ?a ?b] =>
    destruct (Qle_bool a b) end;
    eexists _, _; (split; [reflexivity|]); (split; [reflexivity|]);
    (split; [reflexivity|discriminate]).
Qed.










End ViewFacts.

(** ** More on the scoring endpoints *)

Module RouteFacts.

Import Endpoints ScoringRoutes.

Lemma in_1_to_5_valid v : in_1_to_5 v → invalid_1_to_5 v = false.
Proof.
  intros (q & -> & Hlo & Hhi). cbn.
  apply Qle_bool_iff in Hlo, Hhi. by rewrite Hlo, Hhi.
Qed.

Lemma existsb_false {A} (f : A → bool) (l : list A) :
  existsb f l = false ↔ Forall (fun x => f x = false) l.
Proof.
  induction l as [|x l IH]; cbn; [by split; [constructor|]|].
  rewrite orb_false_iff, IH, Forall_cons. done.
Qed.

Section Routes.

Variable Result : Type.
Variables calculateBigFiveScores calculateMBTIScores calculateDISCScores :
  json → Result + string.

Lemma validate_bigfive_None es :
  validate_bigfive Result es = None ↔ Forall (fun e => valid_scores e.2) es.
Proof.
  split; [apply EndpointFacts.validate_bigfive_passes|].
  induction 1 as [|[itemId scores] es (items & Hs & Hitems) _ IH]; [done|].
  cbn in Hs. subst scores. cbn.
  assert (existsb invalid_1_to_5 items = false) as ->; [|done].
  apply existsb_false. eapply Forall_impl; [exact Hitems|].
  apply in_1_to_5_valid.
Qed.

Lemma validate_bigfive_reply es reply :
  validate_bigfive Result es = Some reply → is_bad_request reply.
Proof.
  induction es as [|[itemId scores] es IH]; [done|]. cbn.
  destruct scores as [| | | |items|]; try (intros [= <-]; by eexists _, _).
  destruct (existsb invalid_1_to_5 items); [|done].
  intros [= <-]. by eexists _, _.
Qed.

Lemma validate_mbti_is_bigfive es :
  validate_mbti Result es = validate_bigfive Result es.
Proof.
  induction es as [|[itemId scores] es IH]; [done|]. cbn.
  destruct scores as [| | | |items|]; try done;
    by destruct (existsb invalid_1_to_5 items).
Qed.

Lemma validate_disc_None es :
  validate_disc Result es = None ↔ Forall (fun e => numeric_scores e.2) es.
Proof.
  split.
  - induction es as [|[itemId scores] es IH]; [constructor|].
    cbn. destruct scores as [| | | |items|]; try discriminate.
    destruct (existsb not_a_number items) eqn:E; [discriminate|].
    intros H. constructor; [|by apply IH].
    exists items. split; [done|].
    apply existsb_false in E. eapply Forall_impl; [exact E|].
    intros [| |q| | |]; try discriminate. by exists q.
  - induction 1 as [|[itemId scores] es (items & Hs & Hitems) _ IH]; [done|].
    cbn in Hs. subst scores. cbn.
    assert (existsb not_a_number items = false) as ->; [|done].
    apply existsb_false. eapply Forall_impl; [exact Hitems|].
    by intros x (q & ->).
Qed.

Lemma validate_disc_reply es reply :
  validate_disc Result es = Some reply → is_bad_request reply.
Proof.
  induction es as [|[itemId scores] es IH]; [done|]. cbn.
  destruct scores as [| | | |items|]; try (intros [= <-]; by eexists _, _).
  destruct (existsb not_a_number items); [|done].
  intros [= <-]. by eexists _, _.
Qed.

Lemma valid_scores_numeric v : valid_scores v → numeric_scores v.
Proof.
  intros (items & -> & H). exists items. split; [done|].
  eapply Forall_impl; [exact H|]. intros x (q & -> & _). by exists q.
Qed.

Lemma numeric_scores_array v : numeric_scores v → ∃ items, v = JArr items.
Proof. intros (items & -> & _). by exists items. Qed.

Lemma validate_arrays_None es :
  validate_arrays Result es = None ↔
  Forall (fun e => ∃ items, e.2 = JArr items) es.
Proof.
  split; [apply EndpointFacts.validate_arrays_passes|].
  induction 1 as [|[itemId scores] es (items & Hs) _ IH]; [done|].
  cbn in Hs. by subst scores.
Qed.

End Routes.

(** /api/bigfive calls its scoring function, once and on the raw scores
    as sent, exactly when [rawScores] is an object (or an array) all of
    whose entries are arrays of numbers within [1,5], and then never
    answers with a validation error.  In every other case it makes no
    call, and its reply is a validation error unless the body is
    [null]. *)
Theorem bigfive_scores_exactly_valid_input (Result : Type)
    (calculateBigFiveScores : json → Result + string) (body : json) :
  let out := bigfive_POST Result calculateBigFiveScores body in
  let accepted raw :=
    get_property body "rawScores" = Some raw ∧
    not_an_object (Some raw) = false ∧
    Forall (fun e => valid_scores e.2) (entries raw) in
  (∃ raw, accepted raw ∧ out.2 = [CallBigFive raw] ∧ ¬ is_bad_request out.1) ∨
  ((∀ raw, ¬ accepted raw) ∧ out.2 = [] ∧
   (is_bad_request out.1 ∨ body = JNull)).
Proof.
  intros out accepted. unfold out, bigfive_POST, accepted.
  destruct body as [| | | | |fields];
    try (right; cbn; split_and!;
         [ intros raw (H & _); discriminate
         | done
         | first [ by right | left; by eexists _, _ ] ]).
  destruct (get_property (JObj fields) "rawScores") as [raw|] eqn:Hraw.
  2: { right. cbn. split_and!; [|done|left; by eexists _, _].
       intros raw (H & _). discriminate. }
  destruct (not_an_object (Some raw)) eqn:Hobj.
  { right. split_and!; [|done|left; by eexists _, _].
    intros raw' ([= <-] & H & _). congruence. }
  cbn [default from_option id].
  destruct (validate_bigfive Result (entries raw)) as [reply|] eqn:Hval.
  - right. split_and!; [|done|left; by eapply validate_bigfive_reply].
    intros raw' ([= <-] & _ & H).
    apply (proj2 (validate_bigfive_None Result _)) in H. congruence.
  - left. exists raw. apply validate_bigfive_None in Hval.
    destruct (calculateBigFiveScores raw);
      (split_and!; [done..|]); intros (e & a & H); discriminate.
Qed.

(** /api/mbti validates exactly like /api/bigfive: on every body the two
    endpoints either both call their scoring function or both answer
    the same validation error. *)
Theorem mbti_validates_like_bigfive (Result : Type)
    (calculateBigFiveScores calculateMBTIScores : json → Result + string)
    (body : json) :
  let bigfive := bigfive_POST Result calculateBigFiveScores body in
  let mbti := mbti_POST Result calculateMBTIScores body in
  (bigfive.2 = [] ↔ mbti.2 = []) ∧
  (∀ error about,
     bigfive.1 = BadRequest error about ↔ mbti.1 = BadRequest error about) ∧
  (∀ raw, bigfive.2 = [CallBigFive raw] ↔ mbti.2 = [CallMBTI raw]).
Proof.
  unfold bigfive_POST, mbti_POST.
  destruct body as [| | | | |fields]; try (cbn; split_and!; by intros).
  destruct (not_an_object _); [cbn; split_and!; by intros|].
  cbv zeta.
  set (raw := default JNull (get_property (JObj fields) "rawScores")).
  pose proof (validate_mbti_is_bigfive Result (entries raw)) as Hv.
  destruct (validate_mbti Result (entries raw)) as [reply'|],
    (validate_bigfive Result (entries raw)) as [reply|];
    try discriminate Hv.
  - injection Hv as ->. cbn; split_and!; by intros.
  - destruct (calculateBigFiveScores raw), (calculateMBTIScores raw); cbn;
      (split_and!; [done|by intros|]); intros raw'; split; by intros [= ->].
Qed.


(** The validators are ordered by strictness: whatever /api/bigfive
    scores, /api/disc scores too; and whatever /api/disc scores,
    /api/psychometrics scores with all three functions when the body
    names no inventories. *)
Theorem validators_ordered_by_strictness (Result : Type)
    (calculateBigFiveScores calculateMBTIScores calculateDISCScores :
       json → Result + string) (body : json) :
  ((bigfive_POST Result calculateBigFiveScores body).2 ≠ [] →
   (disc_POST Result calculateDISCScores body).2 ≠ []) ∧
  ((disc_POST Result calculateDISCScores body).2 ≠ [] →
   get_property body "inventories" = None →
   ∃ raw, get_property body "rawScores" = Some raw ∧
          (psychometrics_POST Result calculateBigFiveScores
             calculateMBTIScores calculateDISCScores body).2
            = [CallBigFive raw; CallMBTI raw; CallDISC raw]).
Proof.
  split.
  - intros H.
    destruct (EndpointFacts.bigfive_scores_checked_input Result
                calculateBigFiveScores body H) as (raw & Hraw & Hall).
    unfold bigfive_POST in H. unfold disc_POST.
    destruct body as [| | | | |fields]; try done.
    rewrite Hraw in H |- *.
    destruct (not_an_object (Some raw)); [done|].
    cbn [default from_option id].
    assert (validate_disc Result (entries raw) = None) as ->.
    { apply validate_disc_None. eapply Forall_impl; [exact Hall|].
      intros e. apply valid_scores_numeric. }
    by destruct (calculateDISCScores raw).
  - intros H Hinv. unfold disc_POST in H. unfold psychometrics_POST.
    destruct body as [| | | | |fields]; try done.
    rewrite Hinv.
    destruct (get_property (JObj fields) "rawScores") as [raw|]; [|done].
    destruct (not_an_object (Some raw)); [done|].
    cbn [default from_option id] in *.
    destruct (validate_disc Result (entries raw)) eqn:Hval; [done|].
    apply validate_disc_None in Hval.
    assert (validate_arrays Result (entries raw) = None) as Harr.
    { apply validate_arrays_None. eapply Forall_impl; [exact Hval|].
      intros e. apply numeric_scores_array. }
    exists raw. split; [done|]. cbn. rewrite Harr.
    unfold score_block.
    by destruct (calculateBigFiveScores raw), (calculateMBTIScores raw),
      (calculateDISCScores raw).
Qed.

Lemma includes_spec names key :
  includes names key = true ↔ JStr key ∈ names.
Proof.
  unfold includes. rewrite existsb_exists. split.
  - intros (v & Hin & Hv). destruct v as [| | |s| |]; try discriminate.
    apply String.eqb_eq in Hv as ->. by apply list_elem_of_In.
  - intros Hin. exists (JStr key). split; [by apply list_elem_of_In|].
    apply String.eqb_refl.
Qed.

Lemma includes_same names names' key :
  (∀ v, v ∈ names ↔ v ∈ names') → includes names key = includes names' key.
Proof.
  intros Hsame.
  destruct (includes names key) eqn:E, (includes names' key) eqn:E'; try done.
  - apply includes_spec, Hsame, includes_spec in E. congruence.
  - apply includes_spec, Hsame, includes_spec in E'. congruence.
Qed.

Lemma find_invalid_none names :
  Forall (fun v => is_valid_inventory v = true) names →
  List.find (fun v => negb (is_valid_inventory v)) names = None.
Proof.
  induction 1 as [|v names Hv _ IH]; [done|]. cbn. by rewrite Hv.
Qed.

(** /api/psychometrics reads the list of inventories as a set: two
    requests with the same raw scores whose lists hold the same valid
    names, in any order and with any repetitions, get the same reply and
    cause the same scoring calls, always in the order Big Five, MBTI,
    DISC. *)
Theorem psychometrics_ignores_order_and_repeats (Result : Type)
    (calculateBigFiveScores calculateMBTIScores calculateDISCScores :
       json → Result + string)
    (fields fields' : list (string * json)) (names names' : list json) :
  assoc "rawScores" fields = assoc "rawScores" fields' →
  assoc "inventories" fields = Some (JArr names) →
  assoc "inventories" fields' = Some (JArr names') →
  Forall (fun v => is_valid_inventory v = true) names →
  (∀ v, v ∈ names ↔ v ∈ names') →
  psychometrics_POST Result calculateBigFiveScores calculateMBTIScores
    calculateDISCScores (JObj fields)
  = psychometrics_POST Result calculateBigFiveScores calculateMBTIScores
      calculateDISCScores (JObj fields').
Proof.
  intros Hraw Hinv Hinv' Hvalid Hsame.
  assert (Hvalid' : Forall (fun v => is_valid_inventory v = true) names').
  { rewrite Forall_forall in Hvalid |- *. intros v Hv.
    by apply Hvalid, Hsame. }
  unfold psychometrics_POST. cbn [get_property].
  rewrite <- Hraw, Hinv, Hinv'. cbn [default from_option id].
  destruct (not_an_object (assoc "rawScores" fields)); [done|].
  destruct names as [|inv invs], names' as [|inv' invs']; [done| | |].
  - exfalso. apply (elem_of_nil inv'). apply Hsame. apply list_elem_of_here.
  - exfalso. apply (elem_of_nil inv). apply Hsame. apply list_elem_of_here.
  - rewrite !find_invalid_none by done.
    destruct (validate_arrays Result _); [done|].
    by rewrite !(includes_same _ _ _ Hsame).
Qed.

Lemma psychometrics_ignores_order_and_repeats_witness :
  let raw := JObj [("N1", JArr [JNum 4])] in
  let calc : json → unit + string := fun _ => inl () in
  psychometrics_POST unit calc calc calc
    (JObj [("rawScores", raw);
           ("inventories", JArr [JStr "disc"; JStr "bigfive"; JStr "disc"])])
  = psychometrics_POST unit calc calc calc
      (JObj [("inventories", JArr [JStr "bigfive"; JStr "disc"]);
             ("rawScores", raw)]).
Proof.
  intros raw calc.
  apply (psychometrics_ignores_order_and_repeats unit calc calc calc _ _
           [JStr "disc"; JStr "bigfive"; JStr "disc"]
           [JStr "bigfive"; JStr "disc"]); try reflexivity.
  - by repeat constructor.
  - intros v. rewrite !elem_of_cons. tauto.
Defined.

Lemma assoc_app k (fields extra : list (string * json)) :
  assoc k (fields ++ extra) =
    match assoc k fields with Some v => Some v | None => assoc k extra end.
Proof.
  induction fields as [|[k' v] rest IH]; [reflexivity|].
  cbn. by destruct (String.eqb k k').
Qed.

(** Leaving [inventories] out of a request to /api/psychometrics is the
    same as asking for all three. *)
Theorem psychometrics_default_is_all_three (Result : Type)
    (calculateBigFiveScores calculateMBTIScores calculateDISCScores :
       json → Result + string) (fields : list (string * json)) :
  assoc "inventories" fields = None →
  psychometrics_POST Result calculateBigFiveScores calculateMBTIScores
    calculateDISCScores (JObj fields)
  = psychometrics_POST Result calculateBigFiveScores calculateMBTIScores
      calculateDISCScores
      (JObj (fields ++
             [("inventories", JArr [JStr "bigfive"; JStr "mbti"; JStr "disc"])])).
Proof.
  intros Hnone. unfold psychometrics_POST. cbn [get_property].
  rewrite !assoc_app, Hnone.
  change (assoc "rawScores" [("inventories", _)]) with (@None json).
  change (assoc "inventories" [("inventories", ?v)]) with (Some v).
  by destruct (assoc "rawScores" fields).
Qed.

Lemma psychometrics_default_is_all_three_witness :
  (psychometrics_POST unit (fun _ => inl ()) (fun _ => inr "no items")
     (fun _ => inl ()) (JObj [("rawScores", JObj [])])).2
  = [CallBigFive (JObj []); CallMBTI (JObj []); CallDISC (JObj [])].
Proof.
  rewrite (psychometrics_default_is_all_three unit (fun _ => inl ())
             (fun _ => inr "no items") (fun _ => inl ())
             [("rawScores", JObj [])] eq_refl).
  reflexivity.
Defined.

(** Once /api/psychometrics gets past validation, every requested
    inventory is scored and reported exactly once: under [data] with its
    result when its scoring function returned, under [warnings] with the
    message when it threw; nothing else is reported.  The reply is the
    error "All calculations failed" exactly when no function returned,
    and never a validation error. *)
Theorem psychometrics_reports_each_request_once (Result : Type)
    (calculateBigFiveScores calculateMBTIScores calculateDISCScores :
       json → Result + string) (body : json) :
  let out := psychometrics_POST Result calculateBigFiveScores
               calculateMBTIScores calculateDISCScores body in
  out.2 ≠ [] →
  ∃ raw names,
    get_property body "rawScores" = Some raw ∧
    default (JArr [JStr "bigfive"; JStr "mbti"; JStr "disc"])
            (get_property body "inventories") = JArr names ∧
    let reported (key : string) (calc : json → Result + string)
          (data : list (string * Result))
          (warnings : list (string * string)) :=
      if includes names key then
        (match calc raw with
         | inl r => ((key, r) ∈ data) ∧ (key ∉ (fst <$> warnings))
         | inr m => ((key, m) ∈ warnings) ∧ (key ∉ (fst <$> data))
         end)
      else (key ∉ (fst <$> data)) ∧ (key ∉ (fst <$> warnings)) in
    let thrown (key : string) (calc : json → Result + string) :=
      includes names key = true → ∃ m, calc raw = inr m in
    match out.1 with
    | Success data warnings =>
        data ≠ [] ∧
        reported "bigfive" calculateBigFiveScores data warnings ∧
        reported "mbti" calculateMBTIScores data warnings ∧
        reported "disc" calculateDISCScores data warnings ∧
        (length data + length warnings = length out.2)%nat
    | ServerError error =>
        error = "All calculations failed" ∧
        thrown "bigfive" calculateBigFiveScores ∧
        thrown "mbti" calculateMBTIScores ∧
        thrown "disc" calculateDISCScores
    | BadRequest _ _ => False
    end.
Proof.
  intros out Hcalls.
  destruct (EndpointFacts.psychometrics_scores_checked_shape Result
              calculateBigFiveScores calculateMBTIScores calculateDISCScores
              body Hcalls) as (raw & names & Hraw & Hnames & Hvalid & Harr).
  exists raw, names. split; [done|]. split; [done|]. cbv zeta.
  unfold out, psychometrics_POST in *.
  destruct body as [| | | | |fields]; try done.
  rewrite Hraw, Hnames in *.
  destruct (not_an_object (Some raw)); [done|].
  destruct names as [|inv invs]; [done|].
  rewrite (find_invalid_none _ Hvalid).
  cbn [default from_option id].
  rewrite (proj2 (validate_arrays_None Result _) Harr).
  unfold score_block.
  destruct (includes (inv :: invs) "bigfive"),
           (includes (inv :: invs) "mbti"),
           (includes (inv :: invs) "disc");
    destruct (calculateBigFiveScores raw) as [r1|m1],
             (calculateMBTIScores raw) as [r2|m2],
             (calculateDISCScores raw) as [r3|m3];
    cbn; try done;
    repeat split;
    first [ done
          | by repeat constructor
          | by apply (bool_decide_unpack _)
          | by eexists ].
Qed.

Lemma psychometrics_reports_each_request_once_witness :
  (psychometrics_POST nat (fun _ => inl 7%nat) (fun _ => inr "no items")
     (fun _ => inl 9%nat)
     (JObj [("rawScores", JObj []);
            ("inventories", JArr [JStr "mbti"; JStr "bigfive"])])).1
  = Success [("bigfive", 7%nat)] [("mbti", "no items")].
Proof.
  pose proof (psychometrics_reports_each_request_once nat
    (fun _ => inl 7%nat) (fun _ => inr "no items") (fun _ => inl 9%nat)
    (JObj [("rawScores", JObj []);
           ("inventories", JArr [JStr "mbti"; JStr "bigfive"])])) as H.
  cbv zeta in H. destruct H as (raw & names & _); [discriminate|].
  reflexivity.
Defined.

End RouteFacts.

(** ** Starting and saving runs *)

Module LaunchFacts.

Import Endpoints AnalyzeRoute.

Lemma names_of_valid names :
  List.find (fun v => negb (is_valid_inventory v)) names = None →
  length (omap inventory_name names) = length names ∧
  Forall (fun n => n ∈ ["bigfive"; "mbti"; "disc"]) (omap inventory_name names).
Proof.
  induction names as [|v names IH]; [by split; [|constructor]|].
  cbn [List.find]. destruct (is_valid_inventory v) eqn:Hv; [|discriminate].
  cbn [negb]. intros Hfind. destruct (IH Hfind) as [Hlen Hall].
  destruct v as [| | |s| |]; try discriminate.
  cbn [omap list_omap inventory_name]. rewrite Hv.
  change (list_omap _ _ inventory_name names) with (omap inventory_name names).
  split; [cbn; by rewrite Hlen|].
  constructor; [|done]. cbn in Hv. by apply bool_decide_eq_true in Hv.
Qed.

Lemma collect_items_nonempty
    (BF DISC MBTI : list Analyze.InventoryItem) (names : list string) n :
  n ∈ names → n ∈ ["bigfive"; "mbti"; "disc"] →
  BF ≠ [] → DISC ≠ [] → MBTI ≠ [] →
  Analyze.collect_items BF DISC MBTI names ≠ [].
Proof.
  intros Hin Hn HBF HDISC HMBTI.
  unfold Analyze.collect_items, Analyze.includes.
  rewrite !elem_of_cons in Hn.
  destruct Hn as [->|[->|[->|Hn]]]; [..|by apply elem_of_nil in Hn];
    repeat case_bool_decide; try done; cbn [app];
    intros E; repeat (apply app_eq_nil in E as [E ?]); done.
Qed.

(** POST /api/analyze answers "Analysis invoked" exactly when it starts a
    run, and it starts one only with a non-empty API key, a non-empty
    model string and a non-empty list of inventories all of which are
    known names.  The run then has work to do: with non-empty catalogs
    its item list is not empty; the estimate quoted is 2 to 3 minutes per
    inventory. *)
Theorem analyze_starts_only_valid_runs (apiKey : option string) (body : json) :
  let out := analyze_POST apiKey body in
  (is_Some out.2 ↔ ∃ m p i a b, out.1 = Invoked m p i a b) ∧
  ∀ launch, out.2 = Some launch →
    apiKey = Some (l_apiKey launch) ∧ l_apiKey launch ≠ EmptyString ∧
    get_property body "model" = Some (JStr (l_model launch)) ∧
    l_model launch ≠ EmptyString ∧
    l_inventories launch ≠ [] ∧
    Forall (fun n => n ∈ ["bigfive"; "mbti"; "disc"]) (l_inventories launch) ∧
    out.1 = Invoked (l_model launch) (l_persona launch) (l_inventories launch)
              (length (l_inventories launch) * 2)
              (length (l_inventories launch) * 3) ∧
    ∀ BIG_FIVE_ITEMS DISC_ITEMS MBTI_ITEMS : list Analyze.InventoryItem,
      BIG_FIVE_ITEMS ≠ [] → DISC_ITEMS ≠ [] → MBTI_ITEMS ≠ [] →
      Analyze.collect_items BIG_FIVE_ITEMS DISC_ITEMS MBTI_ITEMS
        (l_inventories launch) ≠ [].
Proof.
  unfold analyze_POST.
  destruct body as [| | | | |fields];
    try (destruct apiKey as [[|c k]|]; cbn;
         (split; [split; [by intros [? [=]]|by intros (?&?&?&?&?&[=])]
                 |by intros ? [=]])).
  destruct apiKey as [[|c k]|];
    try (cbn; split; [split; [by intros [? [=]]|by intros (?&?&?&?&?&[=])]
                     |by intros ? [=]]).
  destruct (get_property (JObj fields) "model") as [[| | |[|c' m]| |]|] eqn:Hm;
    try (cbn; split; [split; [by intros [? [=]]|by intros (?&?&?&?&?&[=])]
                     |by intros ? [=]]).
  destruct (default _ (get_property (JObj fields) "inventories"))
    as [| | | |[|inv invs]|];
    try (cbn; split; [split; [by intros [? [=]]|by intros (?&?&?&?&?&[=])]
                     |by intros ? [=]]).
  destruct (List.find _ (inv :: invs)) eqn:Hfind;
    [cbn; split; [split; [by intros [? [=]]|by intros (?&?&?&?&?&[=])]
                 |by intros ? [=]]|].
  destruct (names_of_valid _ Hfind) as [Hlen Hall].
  revert Hlen Hall. generalize (omap inventory_name (inv :: invs)).
  intros names Hlen Hall. cbn [fst snd]. split.
  - split; [intros _; by eexists _, _, _, _, _|by eexists].
  - intros launch [= <-]. cbn [l_apiKey l_model l_inventories l_persona].
    destruct names as [|n ns]; [discriminate Hlen|].
    split_and!; try done.
    intros BF DISC MBTI HBF HDISC HMBTI.
    apply Forall_cons in Hall as [Hn _].
    eapply collect_items_nonempty; eauto. apply list_elem_of_here.
Qed.

(** A body that names only a model starts a Big Five run as the base
    model; an unknown inventory name is refused and nothing is started. *)
Example analyze_POST_examples :
  analyze_POST (Some "key") (JObj [("model", JStr "gpt-4")])
    = (Invoked "gpt-4" (JStr "Base Model") ["bigfive"] 2 3,
       Some {| l_apiKey := "key"; l_model := "gpt-4";
               l_inventories := ["bigfive"];
               l_persona := JStr "Base Model";
               l_systemPrompt := JStr EmptyString |}) ∧
  analyze_POST (Some "key")
      (JObj [("model", JStr "gpt-4");
             ("inventories", JArr [JStr "disc"; JStr "hexaco"])])
    = (Refused "Invalid inventory" (Some (JStr "hexaco")), None).
Proof. split; reflexivity. Qed.

Import Analyze Actions.

(** [saveRun] never throws.  It hands at most one row to the client, and
    that row holds what [runAnalysis] stores for the same profile, logs
    aside (an empty persona becomes "Base Model" on both paths).  It
    reports success exactly when the client was configured and accepted
    the row; a time stamp no [Date] can hold is reported as a failure
    before anything is sent. *)
Theorem saveRun_reports_the_insert
    (supabase : option (SavedRow → InsertOutcome)) (profile : ModelProfile) :
  let out := saveRun supabase profile in
  (length out.2 ≤ 1)%nat ∧
  (∀ row logs, row ∈ out.2 → row = without_logs (row_of profile logs)) ∧
  (out.1 = Saved ↔
   ∃ insert row, supabase = Some insert ∧ out.2 = [row] ∧
                 insert row = InsertOk) ∧
  (valid_time (timestamp profile) = false → out.2 = []).
Proof.
  unfold saveRun. destruct supabase as [insert|].
  2: { cbn. split_and!; [lia| |split; [done|]|done].
       - intros row logs H. by apply elem_of_nil in H.
       - by intros (? & ? & [=] & _). }
  destruct (valid_time (timestamp profile)).
  2: { cbn. split_and!; [lia| |split; [done|]|done].
       - intros row logs H. by apply elem_of_nil in H.
       - by intros (? & ? & _ & [=] & _). }
  cbv zeta. set (row := Build_SavedRow _ _ _ _ _).
  destruct (insert row) eqn:E; cbn [fst snd length];
    (split_and!; [lia| | |done]);
    try (intros row' logs ->%list_elem_of_singleton; reflexivity).
  - split; [intros _|done]. by exists insert, row.
  - split; [done|]. intros (insert' & row' & [= <-] & [= <-] & H). congruence.
  - split; [done|]. intros (insert' & row' & [= <-] & [= <-] & H). congruence.
Qed.

End LaunchFacts.
